(** * SwachhSathi Scanner: the utility layer, embedded and verified

    The development follows [src/utils/scanner.ts], [src/utils/api.ts] and
    [src/utils/location.ts].

    - ECMAScript strings are sequences of 16-bit code units: [jsstring].
    - ECMAScript numbers are IEEE-754 binary64 values: [number], on the
      Standard Library's [spec_float] with [prec = 53] and [emax = 1024].
    - Values that [JSON.parse] can return, and [undefined], are [JSValue].
    - [try]/[catch] is an explicit sum [exn + A].
    - [localStorage] is a record with one cell per key the program uses.
    - The clock, the random source and the [Math] object are passed in. *)

From Stdlib Require Import ZArith NArith Lia Bool Ascii String DecimalString.
From Stdlib Require Import Floats.SpecFloat.
From Stdlib Require DecimalZ DecimalPos.
From stdpp Require Import base option list.

Set Default Proof Using "Type".
Set Warnings "-register-all".
Local Open Scope N_scope.
Local Open Scope list_scope.

(* ===================================================================== *)
(** * ECMAScript values *)
(* ===================================================================== *)

(** A string is a finite sequence of UTF-16 code units.  A code unit is
    below 2^16; no definition here relies on that bound. *)
Definition code_unit := N.
Definition jsstring := list code_unit.

(** Source literals are ASCII; [js] turns one into its code units. *)
Definition js (s : string) : jsstring :=
  map N_of_ascii (list_ascii_of_string s).

(** Same, with every apostrophe standing for the quotation mark U+0022, so
    that JSON texts can be written down legibly. *)
Definition QUOTE : code_unit := 34.
Definition jsq (s : string) : jsstring :=
  map (fun c => if c =? 39 then QUOTE else c) (js s).

Definition number := spec_float.

Module Num.
Definition prec : Z := 53.
Definition emax : Z := 1024.

Definition add : number -> number -> number := SFadd prec emax.
Definition sub : number -> number -> number := SFsub prec emax.
Definition mul : number -> number -> number := SFmul prec emax.
Definition div : number -> number -> number := SFdiv prec emax.
Definition sqrt : number -> number := SFsqrt prec emax.
Definition opp : number -> number := SFopp.

(** The Number value of a mathematical integer. *)
Definition of_Z (z : Z) : number := binary_normalize prec emax z 0 false.

(** The Number value of [(-1)^s * m * 10^e] for a decimal literal with
    digits [m]: the quotient is rounded once, from the exact integers. *)
Definition of_decimal (s : bool) (m : N) (e : Z) : number :=
  match m with
  | N0 => S754_zero s
  | Npos p =>
      match e with
      | Zneg k => div (S754_finite s p 0) (S754_finite false (10 ^ k)%positive 0)
      | _ => binary_normalize prec emax
               (cond_Zopp s (Zpos p) * 10 ^ e)%Z 0 false
      end
  end.

Definition is_zero (x : number) : bool :=
  match x with S754_zero _ => true | _ => false end.
Definition is_nan (x : number) : bool :=
  match x with S754_nan => true | _ => false end.

Definition zero : number := S754_zero false.
Definition one : number := of_Z 1.
Definition two : number := of_Z 2.
End Num.

Inductive JSValue : Type :=
| JUndefined
| JNull
| JBool (b : bool)
| JNumber (n : number)
| JString (s : jsstring)
| JArray (elements : list JSValue)
| JObject (properties : list (jsstring * JSValue)).

(** ToBoolean (ECMA-262 7.1.2). *)
Definition ToBoolean (v : JSValue) : bool :=
  match v with
  | JUndefined | JNull => false
  | JBool b => b
  | JNumber n => negb (Num.is_zero n || Num.is_nan n)
  | JString s => match s with [] => false | _ :: _ => true end
  | JArray _ | JObject _ => true
  end.

(** Exceptions, and the result of a computation that may throw. *)
Inductive exn := SyntaxError | TypeError | RangeError.

Definition throws (A : Type) : Type := exn + A.
Definition ret {A} (a : A) : throws A := inr a.
Definition throw {A} (e : exn) : throws A := inl e.
Definition bind {A B} (m : throws A) (k : A -> throws B) : throws B :=
  match m with inl e => inl e | inr a => k a end.
Definition try_catch {A} (body : throws A) (handler : exn -> A) : A :=
  match body with inl e => handler e | inr a => a end.

Notation "'let!' x ':=' m 'in' k" := (bind m (fun x => k))
  (at level 10, x name, m at level 100, k at level 200).

Definition jsstring_eqb (a b : jsstring) : bool := bool_decide (a = b).

(** Own data properties of an object, in creation order. *)
Fixpoint own_property (props : list (jsstring * JSValue)) (key : jsstring)
  : option JSValue :=
  match props with
  | [] => None
  | (k, v) :: rest => if jsstring_eqb k key then Some v else own_property rest key
  end.

(** CreateDataProperty: a repeated key keeps its place and takes the new
    value. *)
Fixpoint CreateDataProperty (props : list (jsstring * JSValue))
    (key : jsstring) (v : JSValue) : list (jsstring * JSValue) :=
  match props with
  | [] => [(key, v)]
  | (k, w) :: rest =>
      if jsstring_eqb k key then (k, v) :: rest
      else (k, w) :: CreateDataProperty rest key v
  end.

(** [value.key] for a key that names neither an index, [length], nor a
    member of a built-in prototype (such are [userId] and [user_id]):
    reading a property of [undefined] or [null] throws, an object answers
    with its own property, every other value with [undefined]. *)
Definition Get (value : JSValue) (key : jsstring) : throws JSValue :=
  match value with
  | JUndefined | JNull => throw TypeError
  | JObject props =>
      ret (match own_property props key with Some v => v | None => JUndefined end)
  | _ => ret JUndefined
  end.

(** The field [key] of a value returned by [JSON.parse], when the value is
    an object that contains it. *)
Definition field (value : JSValue) (key : jsstring) : option JSValue :=
  match value with
  | JObject props => own_property props key
  | _ => None
  end.

Definition has_field (value : JSValue) (key : jsstring) : bool :=
  match field value key with Some _ => true | None => false end.

(** [a || b], with the right operand evaluated only when needed. *)
Definition or_else (a : JSValue) (b : throws JSValue) : throws JSValue :=
  if ToBoolean a then ret a else b.

(* ===================================================================== *)
(** * String.prototype *)
(* ===================================================================== *)

(** [strip_prefix p s] is [Some r] exactly when [s = p ++ r]. *)
Fixpoint strip_prefix (p s : jsstring) : option jsstring :=
  match p, s with
  | [], _ => Some s
  | _ :: _, [] => None
  | a :: p', b :: s' => if a =? b then strip_prefix p' s' else None
  end.

(** [s.startsWith(p)] *)
Definition startsWith (s p : jsstring) : bool :=
  match strip_prefix p s with Some _ => true | None => false end.

(** [s.replace(pat, rep)] for a string pattern and a replacement without
    [$]: the first occurrence of [pat] is replaced, and [s] comes back
    unchanged when there is none. *)
Fixpoint replace (s pat rep : jsstring) : jsstring :=
  match strip_prefix pat s with
  | Some rest => rep ++ rest
  | None =>
      match s with
      | [] => []
      | c :: s' => c :: replace s' pat rep
      end
  end.

(** [s.substr(start, len)] for non-negative arguments. *)
Definition substr (s : jsstring) (start len : nat) : jsstring :=
  take len (drop start s).

(** The decimal rendering of an integral Number inside a template literal. *)
Definition Z_to_jsstring (z : Z) : jsstring :=
  js (NilZero.string_of_int (Z.to_int z)).

(* ===================================================================== *)
(** * JSON.parse *)
(* ===================================================================== *)

(** The JSON grammar of ECMA-404, which [JSON.parse] accepts and nothing
    else: a recursive-descent reader over the code units.  The nesting of
    arrays and objects is read with [fuel]; [parse] supplies more than any
    text can use (see [parse_value_fuel]). *)
Module JSON.

Definition chr (a : ascii) : code_unit := N_of_ascii a.

Definition is_ws (c : code_unit) : bool :=
  (c =? 9) || (c =? 10) || (c =? 13) || (c =? 32).

Definition is_digit (c : code_unit) : bool := (48 <=? c) && (c <=? 57).

Definition hex_value (c : code_unit) : option N :=
  if (48 <=? c) && (c <=? 57) then Some (c - 48)
  else if (65 <=? c) && (c <=? 70) then Some (c - 55)
  else if (97 <=? c) && (c <=? 102) then Some (c - 87)
  else None.

Fixpoint skip_ws (s : jsstring) : jsstring :=
  match s with
  | c :: s' => if is_ws c then skip_ws s' else s
  | [] => []
  end.

(** The character an escape letter stands for. *)
Definition escape (c : code_unit) : option code_unit :=
  if c =? QUOTE then Some QUOTE
  else if c =? chr "\" then Some (chr "\")
  else if c =? chr "/" then Some (chr "/")
  else if c =? chr "b" then Some 8
  else if c =? chr "f" then Some 12
  else if c =? chr "n" then Some 10
  else if c =? chr "r" then Some 13
  else if c =? chr "t" then Some 9
  else None.

(** The characters of a string up to its closing quotation mark. *)
Fixpoint parse_chars (s : jsstring) : option (jsstring * jsstring) :=
  match s with
  | [] => None
  | c :: s1 =>
      if c =? QUOTE then Some ([], s1)
      else if c <? 32 then None
      else if c =? chr "\" then
        match s1 with
        | e :: s2 =>
            if e =? chr "u" then
              match s2 with
              | h1 :: h2 :: h3 :: h4 :: s3 =>
                  match hex_value h1, hex_value h2, hex_value h3, hex_value h4 with
                  | Some a, Some b, Some c', Some d =>
                      match parse_chars s3 with
                      | Some (str, rest) =>
                          Some (((a * 16 + b) * 16 + c') * 16 + d :: str, rest)
                      | None => None
                      end
                  | _, _, _, _ => None
                  end
              | _ => None
              end
            else
              match escape e with
              | Some x =>
                  match parse_chars s2 with
                  | Some (str, rest) => Some (x :: str, rest)
                  | None => None
                  end
              | None => None
              end
        | [] => None
        end
      else
        match parse_chars s1 with
        | Some (str, rest) => Some (c :: str, rest)
        | None => None
        end
  end.

(** A run of decimal digits: their values, and what follows. *)
Fixpoint span_digits (s : jsstring) : list N * jsstring :=
  match s with
  | c :: s' =>
      if is_digit c then
        let '(ds, rest) := span_digits s' in (c - 48 :: ds, rest)
      else ([], s)
  | [] => ([], [])
  end.

Definition digits_value (ds : list N) : N :=
  fold_left (fun acc d => acc * 10 + d) ds 0.

(** A number is an optional minus sign; [0], or a non-zero digit and more
    digits; an optional fraction of a point and one digit or more; an
    optional exponent of [e] or [E], an optional sign and one digit or
    more. *)
Definition parse_sign (s : jsstring) : bool * jsstring :=
  match s with
  | c :: r => if c =? chr "-" then (true, r) else (false, s)
  | [] => (false, s)
  end.

Definition parse_int (s : jsstring) : option (list N * jsstring) :=
  match s with
  | c :: r =>
      if c =? chr "0" then Some ([0], r)
      else if is_digit c then Some (span_digits s)
      else None
  | [] => None
  end.

Definition parse_frac (s : jsstring) : option (list N * jsstring) :=
  match s with
  | c :: r =>
      if c =? chr "." then
        match span_digits r with
        | ([], _) => None
        | (fs, r') => Some (fs, r')
        end
      else Some ([], s)
  | [] => Some ([], s)
  end.

Definition parse_exp_sign (s : jsstring) : bool * jsstring :=
  match s with
  | c :: r =>
      if c =? chr "+" then (false, r)
      else if c =? chr "-" then (true, r)
      else (false, s)
  | [] => (false, s)
  end.

Definition parse_exp (s : jsstring) : option (Z * jsstring) :=
  match s with
  | c :: r =>
      if (c =? chr "e") || (c =? chr "E") then
        let '(eneg, r1) := parse_exp_sign r in
        match span_digits r1 with
        | ([], _) => None
        | (es, r2) => Some (cond_Zopp eneg (Z.of_N (digits_value es)), r2)
        end
      else Some (0%Z, s)
  | [] => Some (0%Z, s)
  end.

Definition parse_number (s : jsstring) : option (number * jsstring) :=
  let '(neg, s1) := parse_sign s in
  match parse_int s1 with
  | None => None
  | Some (ints, s2) =>
      match parse_frac s2 with
      | None => None
      | Some (fracs, s3) =>
          match parse_exp s3 with
          | None => None
          | Some (e, s4) =>
              Some (Num.of_decimal neg (digits_value (ints ++ fracs))
                      (e - Z.of_nat (length fracs))%Z, s4)
          end
      end
  end.

Inductive result :=
| Parsed (v : JSValue) (rest : jsstring)
| Malformed
| OutOfFuel.

Definition literal (word : string) (v : JSValue) (s : jsstring) : result :=
  match strip_prefix (js word) s with
  | Some rest => Parsed v rest
  | None => Malformed
  end.

Fixpoint parse_value (fuel : nat) (s : jsstring) : result :=
  match fuel with
  | O => OutOfFuel
  | S fuel' =>
      match skip_ws s with
      | [] => Malformed
      | c :: s1 =>
          if c =? chr "{" then
            match skip_ws s1 with
            | c' :: s2 =>
                if c' =? chr "}" then Parsed (JObject []) s2
                else parse_members fuel' s1 []
            | [] => Malformed
            end
          else if c =? chr "[" then
            match skip_ws s1 with
            | c' :: s2 =>
                if c' =? chr "]" then Parsed (JArray []) s2
                else parse_elements fuel' s1 []
            | [] => Malformed
            end
          else if c =? QUOTE then
            match parse_chars s1 with
            | Some (str, rest) => Parsed (JString str) rest
            | None => Malformed
            end
          else if c =? chr "t" then literal "true" (JBool true) (c :: s1)
          else if c =? chr "f" then literal "false" (JBool false) (c :: s1)
          else if c =? chr "n" then literal "null" JNull (c :: s1)
          else
            match parse_number (c :: s1) with
            | Some (n, rest) => Parsed (JNumber n) rest
            | None => Malformed
            end
      end
  end

(** The elements after [[] or after a comma, up to the closing bracket. *)
with parse_elements (fuel : nat) (s : jsstring) (acc : list JSValue) : result :=
  match fuel with
  | O => OutOfFuel
  | S fuel' =>
      match parse_value fuel' s with
      | Parsed v r =>
          match skip_ws r with
          | c :: r' =>
              if c =? chr "," then parse_elements fuel' r' (acc ++ [v])
              else if c =? chr "]" then Parsed (JArray (acc ++ [v])) r'
              else Malformed
          | [] => Malformed
          end
      | other => other
      end
  end

(** The members after [{] or after a comma, up to the closing brace. *)
with parse_members (fuel : nat) (s : jsstring)
       (acc : list (jsstring * JSValue)) : result :=
  match fuel with
  | O => OutOfFuel
  | S fuel' =>
      match skip_ws s with
      | q :: s1 =>
          if q =? QUOTE then
            match parse_chars s1 with
            | Some (key, s2) =>
                match skip_ws s2 with
                | colon :: s3 =>
                    if colon =? chr ":" then
                      match parse_value fuel' s3 with
                      | Parsed v r =>
                          match skip_ws r with
                          | c :: r' =>
                              if c =? chr "," then
                                parse_members fuel' r' (CreateDataProperty acc key v)
                              else if c =? chr "}" then
                                Parsed (JObject (CreateDataProperty acc key v)) r'
                              else Malformed
                          | [] => Malformed
                          end
                      | other => other
                      end
                    else Malformed
                | [] => Malformed
                end
            | None => Malformed
            end
          else Malformed
      | [] => Malformed
      end
  end.

(** [JSON.parse(text)]: one value, white space around it, and nothing
    else; a [SyntaxError] otherwise. *)
Definition parse (text : jsstring) : throws JSValue :=
  match parse_value (S (2 * length text)) text with
  | Parsed v rest =>
      match skip_ws rest with
      | [] => ret v
      | _ :: _ => throw SyntaxError
      end
  | Malformed => throw SyntaxError
  | OutOfFuel => throw RangeError
  end.

End JSON.

(* ===================================================================== *)
(** * scanner.ts: the QR decoder *)
(* ===================================================================== *)

Module QRScanResult.
(** [userId] is declared a string; the structured branch stores whatever
    [JSON.parse] returned for the field, so it is kept as a value. *)
Record t := mk {
  text : jsstring;
  userId : option JSValue;
  isValid : bool;
  error : option jsstring
}.
End QRScanResult.

Definition SWACHH_USER_ : jsstring := js "SWACHH_USER_".

(** The result every successful branch builds. *)
Definition valid_result (qrText : jsstring) (userId : JSValue) : QRScanResult.t :=
  QRScanResult.mk qrText (Some userId) true None.

Definition invalid_result (qrText : jsstring) : QRScanResult.t :=
  QRScanResult.mk qrText None false (Some (js "Invalid QR code format")).

(** Lines 29-38.  [None] stands for falling out of the [if]. *)
Definition prefix_branch (qrText : jsstring) : option QRScanResult.t :=
  if startsWith qrText SWACHH_USER_ then
    let userId := replace qrText SWACHH_USER_ [] in
    if ToBoolean (JString userId) && (0 <? length userId)%nat then
      Some (valid_result qrText (JString userId))
    else None
  else None.

(** [parsed.userId || parsed.user_id] *)
Definition userId_or_user_id (parsed : JSValue) : throws JSValue :=
  let! a := Get parsed (js "userId") in
  or_else a (Get parsed (js "user_id")).

(** Lines 42-49, the body of the inner [try]. *)
Definition json_branch (qrText : jsstring) : throws (option QRScanResult.t) :=
  let! parsed := JSON.parse qrText in
  let! condition := userId_or_user_id parsed in
  if ToBoolean condition then
    let! userId := userId_or_user_id parsed in
    ret (Some (valid_result qrText userId))
  else ret None.

(** Lines 28-59, the body of the outer [try]. *)
Definition parseQRCode_body (qrText : jsstring) : throws QRScanResult.t :=
  match prefix_branch qrText with
  | Some result => ret result
  | None =>
      match try_catch (json_branch qrText) (fun _ => None) with
      | Some result => ret result
      | None => ret (valid_result qrText (JString qrText))
      end
  end.

Definition parseQRCode (qrText : jsstring) : QRScanResult.t :=
  try_catch (parseQRCode_body qrText) (fun _ => invalid_result qrText).

(** [isValidUserId]: at least three code units, all of them ASCII letters,
    digits, underscores or hyphens. *)
Definition is_id_char (c : code_unit) : bool :=
  ((97 <=? c) && (c <=? 122)) || ((65 <=? c) && (c <=? 90))
  || ((48 <=? c) && (c <=? 57)) || (c =? 95) || (c =? 45).

Definition isValidUserId (userId : jsstring) : bool :=
  (3 <=? length userId)%nat
  && (match userId with [] => false | _ :: _ => forallb is_id_char userId end).

Definition generateMockQRCode (userId : jsstring) : jsstring :=
  SWACHH_USER_ ++ userId.

(* ===================================================================== *)
(** * The records of api.ts and scanner.ts *)
(* ===================================================================== *)

(** The records are kept as JSON text.  [JSON_number x] is what
    [JSON.parse(JSON.stringify(x))] gives for a Number [x]: JSON has no
    NaN and no infinities, [JSON.stringify] writes [null] for them
    ([None]); it writes [0] for either zero; every other number is written
    with digits that read back as the number itself.  Strings, booleans
    and absent optional fields come back as they were. *)
Definition JSON_number (x : number) : option number :=
  match x with
  | S754_nan | S754_infinity _ => None
  | S754_zero _ => Some Num.zero
  | S754_finite _ _ _ => Some x
  end.

(** The same for a field that may hold [null] already. *)
Definition JSON_nullable (x : option number) : option number :=
  match x with
  | Some v => JSON_number v
  | None => None
  end.

Inductive WasteType := Dry | Wet | Recyclable | Other.

(** The coordinates are declared [number]; in a record read back from the
    store they are [null] ([None]) where the number written was NaN or
    infinite. *)
Module CollectionLog.
Record t := mk {
  id : option jsstring;
  collector_id : jsstring;
  user_id : jsstring;
  waste_type : WasteType;
  timestamp : jsstring;
  latitude : option number;
  longitude : option number;
  notes : option jsstring
}.

(** [Omit<CollectionLog, 'id'>] *)
Record without_id := mk_without_id {
  collector_id' : jsstring;
  user_id' : jsstring;
  waste_type' : WasteType;
  timestamp' : jsstring;
  latitude' : number;
  longitude' : number;
  notes' : option jsstring
}.

(** [{ ...log, id: new_id }] *)
Definition with_id (log : without_id) (new_id : jsstring) : t :=
  mk (Some new_id) (collector_id' log) (user_id' log) (waste_type' log)
     (timestamp' log) (Some (latitude' log)) (Some (longitude' log)) (notes' log).

(** [JSON.parse(JSON.stringify(log))] *)
Definition JSON_roundtrip (log : t) : t :=
  mk (id log) (collector_id log) (user_id log) (waste_type log) (timestamp log)
     (JSON_nullable (latitude log)) (JSON_nullable (longitude log)) (notes log).
End CollectionLog.

Inductive ReportStatus := Pending | Verified | Rejected.

Module IllegalDumpingReport.
Record t := mk {
  id : option jsstring;
  collector_id : jsstring;
  photo_url : option jsstring;
  photo_base64 : option jsstring;
  description : option jsstring;
  timestamp : jsstring;
  latitude : option number;
  longitude : option number;
  status : ReportStatus
}.

Record without_id := mk_without_id {
  collector_id' : jsstring;
  photo_url' : option jsstring;
  photo_base64' : option jsstring;
  description' : option jsstring;
  timestamp' : jsstring;
  latitude' : number;
  longitude' : number;
  status' : ReportStatus
}.

Definition with_id (report : without_id) (new_id : jsstring) : t :=
  mk (Some new_id) (collector_id' report) (photo_url' report)
     (photo_base64' report) (description' report) (timestamp' report)
     (Some (latitude' report)) (Some (longitude' report)) (status' report).

(** [JSON.parse(JSON.stringify(report))] *)
Definition JSON_roundtrip (report : t) : t :=
  mk (id report) (collector_id report) (photo_url report) (photo_base64 report)
     (description report) (timestamp report)
     (JSON_nullable (latitude report)) (JSON_nullable (longitude report))
     (status report).
End IllegalDumpingReport.

Module Collector.
Record t := mk {
  id : jsstring;
  name : jsstring;
  phone : option jsstring;
  area : option jsstring;
  is_active : bool
}.
End Collector.

Module ScanHistory.
Record t := mk {
  id : jsstring;
  userId : jsstring;
  timestamp : jsstring;
  location : option (option number * option number);
  synced : bool
}.

(** [scan.synced = value] *)
Definition set_synced (scan : t) (value : bool) : t :=
  mk (id scan) (userId scan) (timestamp scan) (location scan) value.

(** [JSON.parse(JSON.stringify(scan))] *)
Definition JSON_roundtrip (scan : t) : t :=
  mk (id scan) (userId scan) (timestamp scan)
     (match location scan with
      | Some (lat, lng) => Some (JSON_nullable lat, JSON_nullable lng)
      | None => None
      end)
     (synced scan).
End ScanHistory.

(* ===================================================================== *)
(** * localStorage *)
(* ===================================================================== *)

(** The four keys the program reads and writes.  A cell holds what
    [JSON.parse] gives back for the text stored under the key; [None] is a
    key that is not set.  What is read from a cell has been through JSON
    text already, so writing it back leaves it as it is; a record made in
    memory goes into a cell as its [JSON_roundtrip]. *)
Module Storage.
Record t := mk {
  collection_logs : option (list CollectionLog.t);
  dumping_reports : option (list IllegalDumpingReport.t);
  current_collector : option Collector.t;
  scan_history : option (list ScanHistory.t)
}.

Definition empty : t := mk None None None None.

Definition set_collection_logs (v : option (list CollectionLog.t)) (st : t) : t :=
  mk v (dumping_reports st) (current_collector st) (scan_history st).
Definition set_dumping_reports (v : option (list IllegalDumpingReport.t)) (st : t) : t :=
  mk (collection_logs st) v (current_collector st) (scan_history st).
Definition set_current_collector (v : option Collector.t) (st : t) : t :=
  mk (collection_logs st) (dumping_reports st) v (scan_history st).
Definition set_scan_history (v : option (list ScanHistory.t)) (st : t) : t :=
  mk (collection_logs st) (dumping_reports st) (current_collector st) v.
End Storage.

(** What the host hands out when an identifier is generated:
    [Date.now()], [Math.random().toString(36)] and
    [new Date().toISOString()]. *)
Module Env.
Record t := mk {
  Date_now : Z;
  Math_random_toString36 : jsstring;
  toISOString : jsstring
}.
End Env.

(** [`${tag}_${Date.now()}_${Math.random().toString(36).substr(2, 9)}`] *)
Definition generate_id (tag : string) (env : Env.t) : jsstring :=
  js tag ++ js "_" ++ Z_to_jsstring (Env.Date_now env) ++ js "_"
  ++ substr (Env.Math_random_toString36 env) 2 9.

(* ===================================================================== *)
(** * api.ts *)
(* ===================================================================== *)

Module LocalStorage.
(** [getItem<T>(key)]: the stored list, or [[]] when the key is unset. *)
Definition getItem {T} (cell : option (list T)) : list T :=
  match cell with Some data => data | None => [] end.

Definition getCollectionLogs (st : Storage.t) : list CollectionLog.t :=
  getItem (Storage.collection_logs st).

(** [setItem] writes [JSON.stringify(logs)]: of the array it is given,
    the part read from the store is written back as it was, and the record
    pushed onto it is written as its round trip; the caller gets the record
    made in memory. *)
Definition addCollectionLog (env : Env.t) (log : CollectionLog.without_id)
    (st : Storage.t) : CollectionLog.t * Storage.t :=
  let logs := getCollectionLogs st in
  let newLog := CollectionLog.with_id log (generate_id "log" env) in
  let logs := logs ++ [CollectionLog.JSON_roundtrip newLog] in
  (newLog, Storage.set_collection_logs (Some logs) st).

Definition getIllegalDumpingReports (st : Storage.t) : list IllegalDumpingReport.t :=
  getItem (Storage.dumping_reports st).

Definition addDumpingReport (env : Env.t) (report : IllegalDumpingReport.without_id)
    (st : Storage.t) : IllegalDumpingReport.t * Storage.t :=
  let reports := getIllegalDumpingReports st in
  let newReport := IllegalDumpingReport.with_id report (generate_id "report" env) in
  let reports := reports ++ [IllegalDumpingReport.JSON_roundtrip newReport] in
  (newReport, Storage.set_dumping_reports (Some reports) st).

Definition getCurrentCollector (st : Storage.t) : option Collector.t :=
  Storage.current_collector st.

Definition setCurrentCollector (collector : Collector.t) (st : Storage.t) : Storage.t :=
  Storage.set_current_collector (Some collector) st.

(** [localStorage.removeItem('current_collector')] *)
Definition clearCurrentCollector (st : Storage.t) : Storage.t :=
  Storage.set_current_collector None st.
End LocalStorage.

(** The [async] methods contain no [await]: each runs to its [return] and
    the promise resolves with that value.  An optional argument that is
    left out is [None]; the body sees [undefined], which is falsy. *)
Module CollectorAPI.
Definition login (collectorId : jsstring) (st : Storage.t) : Collector.t * Storage.t :=
  let existing := LocalStorage.getCurrentCollector st in
  let fresh :=
    let collector :=
      Collector.mk collectorId (js "Collector " ++ collectorId) None None true in
    (collector, LocalStorage.setCurrentCollector collector st) in
  match existing with
  | Some c => if bool_decide (Collector.id c = collectorId) then (c, st) else fresh
  | None => fresh
  end.

Definition logout (st : Storage.t) : Storage.t :=
  LocalStorage.clearCurrentCollector st.

Definition getCurrentCollector (st : Storage.t) : option Collector.t :=
  LocalStorage.getCurrentCollector st.

Definition logCollection (env : Env.t) (data : CollectionLog.without_id)
    (st : Storage.t) : CollectionLog.t * Storage.t :=
  LocalStorage.addCollectionLog env data st.

Definition getCollectionLogs (collectorId : option jsstring) (st : Storage.t)
  : list CollectionLog.t :=
  let logs := LocalStorage.getCollectionLogs st in
  match collectorId with
  | Some id =>
      if ToBoolean (JString id) then
        filter (fun log => CollectionLog.collector_id log = id) logs
      else logs
  | None => logs
  end.

Definition reportIllegalDumping (env : Env.t) (data : IllegalDumpingReport.without_id)
    (st : Storage.t) : IllegalDumpingReport.t * Storage.t :=
  LocalStorage.addDumpingReport env data st.

Definition getDumpingReports (collectorId : option jsstring) (st : Storage.t)
  : list IllegalDumpingReport.t :=
  let reports := LocalStorage.getIllegalDumpingReports st in
  match collectorId with
  | Some id =>
      if ToBoolean (JString id) then
        filter (fun report => IllegalDumpingReport.collector_id report = id) reports
      else reports
  | None => reports
  end.
End CollectorAPI.

(* ===================================================================== *)
(** * scanner.ts: the scan history *)
(* ===================================================================== *)

Module ScanHistoryManager.
Definition getHistory (st : Storage.t) : list ScanHistory.t :=
  match Storage.scan_history st with Some stored => stored | None => [] end.

Definition saveHistory (history : list ScanHistory.t) (st : Storage.t) : Storage.t :=
  Storage.set_scan_history (Some history) st.

(** The scan made in memory carries the two numbers it was given; it is
    saved, after the history read from the store, as its round trip. *)
Definition addScan (env : Env.t) (userId : jsstring)
    (location : option (number * number)) (st : Storage.t)
  : ScanHistory.t * Storage.t :=
  let scan :=
    ScanHistory.mk (generate_id "scan" env) userId (Env.toISOString env)
      (match location with
       | Some (lat, lng) => Some (Some lat, Some lng)
       | None => None
       end)
      false in
  let history := getHistory st in
  let history := history ++ [ScanHistory.JSON_roundtrip scan] in
  (scan, saveHistory history st).

Definition getUnsyncedScans (st : Storage.t) : list ScanHistory.t :=
  filter (fun scan => ScanHistory.synced scan = false) (getHistory st).

(** [find] hands out the first entry with the identifier; the assignment
    goes through that reference, so it lands in [history] at the entry's
    index. *)
Definition markAsSynced (scanId : jsstring) (st : Storage.t) : Storage.t :=
  let history := getHistory st in
  match list_find (fun s => ScanHistory.id s = scanId) history with
  | Some (i, scan) =>
      saveHistory (<[i := ScanHistory.set_synced scan true]> history) st
  | None => st
  end.

Definition clearSyncedScans (st : Storage.t) : Storage.t :=
  let history := filter (fun scan => ScanHistory.synced scan = false) (getHistory st) in
  saveHistory history st.
End ScanHistoryManager.

(** A store as [localStorage] holds it: every record in it is one that
    JSON text carries, a fixed point of the round trip. *)
Definition from_JSON_text (st : Storage.t) : Prop :=
  Forall (fun log => CollectionLog.JSON_roundtrip log = log)
    (LocalStorage.getCollectionLogs st)
  /\ Forall (fun report => IllegalDumpingReport.JSON_roundtrip report = report)
       (LocalStorage.getIllegalDumpingReports st)
  /\ Forall (fun scan => ScanHistory.JSON_roundtrip scan = scan)
       (ScanHistoryManager.getHistory st).

(* ===================================================================== *)
(** * location.ts *)
(* ===================================================================== *)

(** The functions of the host's [Math] object that
    [calculateDistance] calls.  ECMA-262 leaves their results
    implementation-approximated, so they are taken as given;
    [Math.sqrt] is the correctly rounded IEEE-754 square root. *)
Module Math.
Record t := mk {
  sin : number -> number;
  cos : number -> number;
  atan2 : number -> number -> number
}.

Definition sqrt : number -> number := Num.sqrt.

(** [Math.PI], 0x400921FB54442D18. *)
Definition PI : number := S754_finite false 7074237752028440 (-51).
End Math.

Definition toRadian (degree : number) : number :=
  Num.mul degree (Num.div Math.PI (Num.of_Z 180)).

Definition calculateDistance (M : Math.t) (lat1 lng1 lat2 lng2 : number) : number :=
  let R := Num.of_Z 6371 in
  let dLat := toRadian (Num.sub lat2 lat1) in
  let dLng := toRadian (Num.sub lng2 lng1) in
  let a :=
    Num.add
      (Num.mul (Math.sin M (Num.div dLat Num.two)) (Math.sin M (Num.div dLat Num.two)))
      (Num.mul
         (Num.mul
            (Num.mul (Math.cos M (toRadian lat1)) (Math.cos M (toRadian lat2)))
            (Math.sin M (Num.div dLng Num.two)))
         (Math.sin M (Num.div dLng Num.two))) in
  let c :=
    Num.mul Num.two
      (Math.atan2 M (Math.sqrt a) (Math.sqrt (Num.sub Num.one a))) in
  Num.mul R c.



Definition getLocationErrorMessage (code : Z) : jsstring :=
  match code with
  | 1%Z => js "Location access denied by user."
  | 2%Z => js "Location information is unavailable."
  | 3%Z => js "Location request timed out."
  | _ => js "An unknown error occurred while fetching location."
  end.

(* ===================================================================== *)
(** * String.prototype.trim *)
(* ===================================================================== *)

(** WhiteSpace and LineTerminator of ECMA-262: TAB, LF, VT, FF, CR, SP,
    NBSP, U+1680, U+2000 to U+200A, LS, PS, U+202F, U+205F, U+3000 and
    ZWNBSP. *)
Definition is_white_space (c : code_unit) : bool :=
  ((9 <=? c) && (c <=? 13)) || (c =? 32) || (c =? 160) || (c =? 5760)
  || ((8192 <=? c) && (c <=? 8202)) || (c =? 8232) || (c =? 8233)
  || (c =? 8239) || (c =? 8287) || (c =? 12288) || (c =? 65279).

Fixpoint trimStart (s : jsstring) : jsstring :=
  match s with
  | c :: s' => if is_white_space c then trimStart s' else s
  | [] => []
  end.

Definition trimEnd (s : jsstring) : jsstring := rev (trimStart (rev s)).

(** [s.trim()] *)
Definition trim (s : jsstring) : jsstring := trimEnd (trimStart s).

(** [s || undefined] for a string [s]: an optional field is left out when
    the string is empty. *)
Definition string_or_undefined (s : jsstring) : option jsstring :=
  if ToBoolean (JString s) then Some s else None.

(** [x?.field || 0] for a number field of an object that may be [null]. *)
Definition number_or_zero (x : option number) : number :=
  match x with
  | Some v => if ToBoolean (JNumber v) then v else Num.zero
  | None => Num.zero
  end.

(* ===================================================================== *)
(** * location.ts: one position fix *)
(* ===================================================================== *)

Module LocationData.
Record t := mk {
  latitude : number;
  longitude : number;
  accuracy : option number;
  timestamp : Z
}.
End LocationData.

Module LocationError.
Record t := mk {
  code : Z;
  message : jsstring
}.
End LocationError.

(** What [navigator.geolocation.getCurrentPosition] answers with: the
    coordinates of a position, or the code of an error. *)
Inductive position_answer :=
| PositionFix (latitude longitude accuracy : number)
| PositionFailure (code : Z).

(** [getCurrentLocation()]: the promise settles as rejected ([inl]) or
    resolved ([inr]).  [geolocation] is [None] when the browser has no
    [navigator.geolocation]; [now] is [Date.now()] at the answer. *)
Definition getCurrentLocation (geolocation : option position_answer) (now : Z)
  : LocationError.t + LocationData.t :=
  match geolocation with
  | None =>
      inl (LocationError.mk 0 (js "Geolocation is not supported by this browser."))
  | Some (PositionFix latitude longitude accuracy) =>
      inr (LocationData.mk latitude longitude (Some accuracy) now)
  | Some (PositionFailure code) =>
      inl (LocationError.mk code (getLocationErrorMessage code))
  end.

(* ===================================================================== *)
(** * The components: what their handlers decide *)
(* ===================================================================== *)

(** A handler is embedded as a function of the component's state and
    props, of what the host answers, and of the store; its result says
    which callback or toast it ends in.  Callbacks and toasts do not
    throw; what is thrown while the argument of a toast is built is
    kept. *)

(** ** QRScanner.handleScan *)

Inductive ScanOutcome :=
| ScanIgnored
| ScanSuccess (userId : JSValue) (location : option (number * number))
| ScanInvalid (description : jsstring)
| ScanError.

(** [scanResult.userId], [undefined] when the property is absent. *)
Definition userId_value (scanResult : QRScanResult.t) : JSValue :=
  match QRScanResult.userId scanResult with Some v => v | None => JUndefined end.

(** Whether ToString throws on a value that [JSON.parse] returned.  An
    object is converted by [Object.prototype.toString] unless it has a
    property [toString] of its own; a value from JSON is never callable,
    so with such a property neither [toString] nor [valueOf] yields a
    primitive, and ToString throws a TypeError.  An array is converted by
    [Array.prototype.join], which converts its elements, [null] apart.
    No other value throws. *)
Fixpoint ToString_throws (v : JSValue) : bool :=
  match v with
  | JArray elements => existsb ToString_throws elements
  | JObject props =>
      match own_property props (js "toString") with
      | Some _ => true
      | None => false
      end
  | _ => false
  end.

(** A template literal around [v]: the string is not kept, the exception
    is. *)
Definition template_literal (v : JSValue) : throws unit :=
  if ToString_throws v then throw TypeError else ret tt.

(** [ScanSuccess u l] is the call [onScanSuccess(u, l)], with [l] left out
    when the position fix failed; [ScanInvalid d] is the toast
    'Invalid QR Code' with description [d]; [ScanError] is the toast
    'Scan Error' of the outer [catch].  The inner [try] is left by a
    rejected position fix or by the template literal of its toast; the
    inner [catch] builds a template literal of its own, and what that
    throws reaches the outer [catch]. *)
Definition handleScan (geolocation : option position_answer) (now : Z)
    (isProcessing : bool) (result : option jsstring) : ScanOutcome :=
  match result with
  | None => ScanIgnored
  | Some text =>
      if ToBoolean (JString text) && negb isProcessing then
        let scanResult := parseQRCode text in
        try_catch
          (if QRScanResult.isValid scanResult && ToBoolean (userId_value scanResult)
           then
             let inner_try : option ScanOutcome :=
               match getCurrentLocation geolocation now with
               | inr location =>
                   match template_literal (userId_value scanResult) with
                   | inr _ =>
                       Some (ScanSuccess (userId_value scanResult)
                               (Some (LocationData.latitude location,
                                      LocationData.longitude location)))
                   | inl _ => None
                   end
               | inl _ => None
               end in
             match inner_try with
             | Some outcome => ret outcome
             | None =>
                 let! _ := template_literal (userId_value scanResult) in
                 ret (ScanSuccess (userId_value scanResult) None)
             end
           else
             ret (ScanInvalid
                    (match QRScanResult.error scanResult with
                     | Some (c :: e) => c :: e
                     | _ => js "This QR code is not recognized"
                     end)))
          (fun _ => ScanError)
      else ScanIgnored
  end.

(** ** Index: scan, then waste type *)

Inductive View := ViewDashboard | ViewScanner | ViewReport.

Module IndexState.
Record t := mk {
  activeView : View;
  showWasteSelector : bool;
  scannedUserId : option jsstring;
  scanLocation : option (number * number)
}.

Definition initial : t := mk ViewDashboard false None None.
End IndexState.

Definition handleScanSuccess (userId : jsstring) (location : option (number * number))
    (s : IndexState.t) : IndexState.t :=
  IndexState.mk ViewDashboard true (Some userId) location.

(** The argument of [logCollection] in [handleWasteTypeSelect]. *)
Definition collection_data (env : Env.t) (collectorId scannedUserId : jsstring)
    (wasteType : WasteType) (scanLocation : option (number * number))
  : CollectionLog.without_id :=
  CollectionLog.mk_without_id collectorId scannedUserId wasteType
    (Env.toISOString env)
    (number_or_zero (option_map fst scanLocation))
    (number_or_zero (option_map snd scanLocation))
    None.

Definition handleWasteTypeSelect (env : Env.t) (collectorId : jsstring)
    (wasteType : WasteType) (s : IndexState.t) (st : Storage.t)
  : IndexState.t * Storage.t :=
  match IndexState.scannedUserId s with
  | Some scannedUserId =>
      if ToBoolean (JString scannedUserId) then
        let data :=
          collection_data env collectorId scannedUserId wasteType
            (IndexState.scanLocation s) in
        let st' := (CollectorAPI.logCollection env data st).2 in
        (IndexState.mk (IndexState.activeView s) false None None, st')
      else (s, st)
  | None => (s, st)
  end.

(** ** ReportDumping.handleSubmit *)

(** The photo of the form: none, one that [FileReader] fails to read, or
    one read into a data URL. *)
Inductive photo_input :=
| NoPhoto
| PhotoUnreadable
| PhotoDataURL (url : jsstring).

Inductive SubmitOutcome :=
| LocationRequired
| ReportSubmitted (report : IllegalDumpingReport.t)
| SubmissionFailed.

(** The argument of [reportIllegalDumping] in [handleSubmit]. *)
Definition report_data (env : Env.t) (collectorId description photoBase64 : jsstring)
    (location : number * number) : IllegalDumpingReport.without_id :=
  IllegalDumpingReport.mk_without_id collectorId None
    (string_or_undefined photoBase64)
    (string_or_undefined (trim description))
    (Env.toISOString env) (fst location) (snd location) Pending.

Definition handleSubmit (env : Env.t) (collectorId description : jsstring)
    (photo : photo_input) (location : option (number * number)) (st : Storage.t)
  : SubmitOutcome * Storage.t :=
  match location with
  | None => (LocationRequired, st)
  | Some position =>
      match photo with
      | PhotoUnreadable => (SubmissionFailed, st)
      | NoPhoto =>
          let '(report, st') :=
            CollectorAPI.reportIllegalDumping env
              (report_data env collectorId description [] position) st in
          (ReportSubmitted report, st')
      | PhotoDataURL url =>
          let '(report, st') :=
            CollectorAPI.reportIllegalDumping env
              (report_data env collectorId description url position) st in
          (ReportSubmitted report, st')
      end
  end.

(** ** Login.handleLogin and App *)

Inductive LoginOutcome :=
| LoginBlank
| LoggedIn (welcome : jsstring) (collectorId : jsstring).

(** [LoginBlank] is the toast 'Please enter your Collector ID';
    [LoggedIn w id] is the toast with description [w] and the call
    [onLogin(id)]. *)
Definition handleLogin (collectorId : jsstring) (st : Storage.t)
  : LoginOutcome * Storage.t :=
  if negb (ToBoolean (JString (trim collectorId))) then (LoginBlank, st)
  else
    let '(collector, st') := CollectorAPI.login (trim collectorId) st in
    (LoggedIn (js "Logged in as " ++ Collector.name collector) (Collector.id collector),
     st').

(** The effect of [App] on mount: the state [currentCollector]. *)
Definition App_restore (st : Storage.t) : option jsstring :=
  match CollectorAPI.getCurrentCollector st with
  | Some collector => Some (Collector.id collector)
  | None => None
  end.

Inductive Page := IndexPage (collectorId : jsstring) | LoginPage.

(** What [App] renders for a state [currentCollector]. *)
Definition App_page (currentCollector : option jsstring) : Page :=
  match currentCollector with
  | Some id => if ToBoolean (JString id) then IndexPage id else LoginPage
  | None => LoginPage
  end.

(** [App.handleLogout]: the store and the state after it. *)
Definition handleLogout (st : Storage.t) : option jsstring * Storage.t :=
  (None, CollectorAPI.logout st).

(** [x == y] on Numbers: false when either is NaN, true for the two
    zeros. *)
Definition Number_equal (x y : number) : bool := SFeqb x y.

(** [Number.isFinite(x)] *)
Definition Number_isFinite (x : number) : bool :=
  match x with
  | S754_zero _ | S754_finite _ _ _ => true
  | S754_infinity _ | S754_nan => false
  end.

(** ** Dashboard.loadData *)

(** What [loadData] asks of the host: the time value of
    [new Date(timestamp)], [NaN] for a text that is no date; the time
    value of [today] once its hours are set to zero; and
    [Array.prototype.sort] with a comparator. *)
Module Runtime.
Record t := mk {
  Date_getTime : jsstring -> number;
  today : number;
  Array_sort : forall A : Type, (A -> A -> number) -> list A -> list A
}.
End Runtime.

(** [a >= b] on Numbers: false when either is [NaN]. *)
Definition Num_geb (a b : number) : bool :=
  match SFcompare a b with
  | Some Gt | Some Eq => true
  | _ => false
  end.

(** [report.status === 'Pending'] and the like are decided. *)
#[global] Instance ReportStatus_eq_dec : EqDecision ReportStatus.
Proof. solve_decision. Defined.

Module DashboardState.
Record stats := mk_stats {
  totalScans : nat;
  totalReports : nat;
  todayScans : nat;
  pendingReports : nat
}.

Record t := mk {
  recentLogs : list CollectionLog.t;
  recentReports : list IllegalDumpingReport.t;
  stats_of : stats
}.
End DashboardState.

(** [sort] works in place: after it [logs] and [reports] are the sorted
    arrays, and the counts are taken from those. *)
Definition loadData (host : Runtime.t) (collectorId : jsstring) (st : Storage.t)
  : DashboardState.t :=
  let logs := CollectorAPI.getCollectionLogs (Some collectorId) st in
  let reports := CollectorAPI.getDumpingReports (Some collectorId) st in
  let logs :=
    Runtime.Array_sort host _
      (fun a b =>
         Num.sub (Runtime.Date_getTime host (CollectionLog.timestamp b))
                 (Runtime.Date_getTime host (CollectionLog.timestamp a))) logs in
  let sortedLogs := take 5 logs in
  let reports :=
    Runtime.Array_sort host _
      (fun a b =>
         Num.sub (Runtime.Date_getTime host (IllegalDumpingReport.timestamp b))
                 (Runtime.Date_getTime host (IllegalDumpingReport.timestamp a)))
      reports in
  let sortedReports := take 5 reports in
  let todayScans :=
    length
      (filter
         (fun log =>
            Num_geb (Runtime.Date_getTime host (CollectionLog.timestamp log))
                    (Runtime.today host) = true) logs) in
  let pendingReports :=
    length
      (filter (fun report => IllegalDumpingReport.status report = Pending) reports) in
  DashboardState.mk sortedLogs sortedReports
    (DashboardState.mk_stats (length logs) (length reports) todayScans pendingReports).

(** A sort as [Array.prototype.sort] may be: by insertion from the right,
    an element going behind the ones its comparator puts it after. *)
Definition comes_after {A} (cmp : A -> A -> number) (a b : A) : bool :=
  match SFcompare (cmp a b) Num.zero with
  | Some Gt => true
  | _ => false
  end.

Fixpoint insert_by {A} (cmp : A -> A -> number) (x : A) (l : list A) : list A :=
  match l with
  | [] => [x]
  | y :: l' => if comes_after cmp x y then y :: insert_by cmp x l' else x :: l
  end.

Definition insertion_sort (A : Type) (cmp : A -> A -> number) (l : list A) : list A :=
  foldr (insert_by cmp) [] l.

(* ===================================================================== *)
(** * Sample values *)
(* ===================================================================== *)

(** Two scans with identifiers of their own. *)
Definition scan_a : ScanHistory.t :=
  ScanHistory.mk (js "scan_1_a") (js "u1") (js "2024-01-01T00:00:00.000Z") None false.
Definition scan_b : ScanHistory.t :=
  ScanHistory.mk (js "scan_2_b") (js "u2") (js "2024-01-01T00:00:01.000Z") None false.

(** One reading of the clock and one draw of the random source. *)
Definition sample_env : Env.t :=
  Env.mk 1700000000123 (js "0.4fzyo82mvyr") (js "2023-11-14T22:13:20.123Z").

(** Two scans added within one millisecond, with the same draw: the store
    after the first, the second scan, and the store after the second. *)
Definition store_after_first_scan : Storage.t :=
  (ScanHistoryManager.addScan sample_env (js "u1") None Storage.empty).2.
Definition second_scan : ScanHistory.t :=
  (ScanHistoryManager.addScan sample_env (js "u2") None store_after_first_scan).1.
Definition store_after_second_scan : Storage.t :=
  (ScanHistoryManager.addScan sample_env (js "u2") None store_after_first_scan).2.

(** A collection whose coordinates JSON text does not carry. *)
Definition off_grid_collection : CollectionLog.without_id :=
  CollectionLog.mk_without_id (js "C1") (js "u1") Wet
    (js "2024-01-01T00:00:00.000Z") (S754_zero true) S754_nan None.

(** A history of the two. *)
Definition store_with_two_scans : Storage.t :=
  ScanHistoryManager.saveHistory [scan_a; scan_b] Storage.empty.

(** A [Math] object for small angles: [sin x] is [x], [cos x] is [1] and
    [atan2 y x] is [y / x]. *)
Definition small_angle_Math : Math.t :=
  Math.mk (fun x => x) (fun _ => Num.one) (fun y x => Num.div y x).


(** A [Math] object whose sine is not odd: [x] for a positive [x] and
    [0] for a negative one. *)
Definition lopsided_Math : Math.t :=
  Math.mk
    (fun x => match x with S754_finite true _ _ => Num.zero | _ => x end)
    (fun _ => Num.one) (fun y x => Num.div y x).

(** A second reading of the clock and draw. *)
Definition later_env : Env.t :=
  Env.mk 1704067201000 (js "0.k3x9q1zzab7") (js "2024-01-01T00:00:01.000Z").

(** A store with two collections of collector C1, the second after
    midnight of 1 January 2024, one of collector C2, and a report of
    C1. *)
Definition collection_of (collectorId userId timestamp : string)
  : CollectionLog.without_id :=
  CollectionLog.mk_without_id (js collectorId) (js userId) Wet (js timestamp)
    (Num.of_Z 12) (Num.of_Z 77) None.

Definition dashboard_store : Storage.t :=
  let st := Storage.empty in
  let st :=
    (CollectorAPI.logCollection sample_env
       (collection_of "C1" "u1" "2023-11-14T22:13:20.123Z") st).2 in
  let st :=
    (CollectorAPI.logCollection later_env
       (collection_of "C1" "u2" "2024-01-01T00:00:01.000Z") st).2 in
  let st :=
    (CollectorAPI.logCollection later_env
       (collection_of "C2" "u3" "2024-01-01T00:00:01.000Z") st).2 in
  (CollectorAPI.reportIllegalDumping later_env
     (IllegalDumpingReport.mk_without_id (js "C1") None None None
        (js "2024-01-01T00:00:01.000Z") (Num.of_Z 12) (Num.of_Z 77) Pending) st).2.

(** A host that reads the two timestamps above, has its midnight at the
    start of 1 January 2024 and sorts by insertion. *)
Definition sample_Runtime : Runtime.t :=
  Runtime.mk
    (fun timestamp =>
       if bool_decide (timestamp = js "2023-11-14T22:13:20.123Z")
       then Num.of_Z 1700000000123
       else if bool_decide (timestamp = js "2024-01-01T00:00:01.000Z")
       then Num.of_Z 1704067201000
       else S754_nan)
    (Num.of_Z 1704067200000)
    insertion_sort.

(* ===================================================================== *)
(** * Strings: prefixes and replacement *)
(* ===================================================================== *)

Lemma strip_prefix_app (p r : jsstring) : strip_prefix p (p ++ r) = Some r.
Proof.
  induction p as [|a p IH]; simpl; [reflexivity|].
  now rewrite N.eqb_refl.
Qed.

Lemma strip_prefix_Some (p s r : jsstring) :
  strip_prefix p s = Some r -> s = p ++ r.
Proof.
  revert s; induction p as [|a p IH]; intros [|b s]; simpl; try congruence.
  destruct (N.eqb_spec a b) as [->|]; [|discriminate].
  intros H; f_equal; auto.
Qed.

Lemma strip_prefix_length (p s r : jsstring) :
  strip_prefix p s = Some r -> length s = (length p + length r)%nat.
Proof. intros H; apply strip_prefix_Some in H; subst; apply length_app. Qed.

Lemma startsWith_app (p r : jsstring) : startsWith (p ++ r) p = true.
Proof. unfold startsWith; now rewrite strip_prefix_app. Qed.

Lemma startsWith_true (s p : jsstring) :
  startsWith s p = true <-> exists r, s = p ++ r.
Proof.
  unfold startsWith; split.
  - destruct (strip_prefix p s) as [r|] eqn:E; [|discriminate].
    intros _; exists r; now apply strip_prefix_Some.
  - intros [r ->]; now rewrite strip_prefix_app.
Qed.

(** When the text begins with the pattern, the first occurrence is the one
    at the start. *)
Lemma replace_leading (p r rep : jsstring) : replace (p ++ r) p rep = rep ++ r.
Proof.
  destruct (p ++ r) as [|c s] eqn:E; simpl; rewrite <- E, strip_prefix_app;
    reflexivity.
Qed.

(* ===================================================================== *)
(** * JSON.parse: the fuel is never used up *)
(* ===================================================================== *)

Ltac break_match_in H :=
  match type of H with
  | context [match ?x with _ => _ end] => destruct x eqn:?
  end.

Lemma skip_ws_length (s : jsstring) : (length (JSON.skip_ws s) <= length s)%nat.
Proof.
  induction s as [|c s IH]; simpl; [lia|].
  destruct (JSON.is_ws c); simpl; lia.
Qed.

Lemma skip_ws_cons_length (s r : jsstring) (c : code_unit) :
  JSON.skip_ws s = c :: r -> (length r < length s)%nat.
Proof.
  intros H; pose proof (skip_ws_length s) as L; rewrite H in L; simpl in L; lia.
Qed.

Lemma parse_chars_length_bounded (n : nat) :
  forall s str rest,
    (length s <= n)%nat ->
    JSON.parse_chars s = Some (str, rest) -> (length rest < length s)%nat.
Proof.
  induction n as [|n IH]; intros s str rest Hn H.
  - destruct s; [discriminate|simpl in Hn; lia].
  - destruct s as [|c s1]; [discriminate|].
    simpl in Hn. cbn [JSON.parse_chars] in H.
    repeat (break_match_in H; try discriminate);
      injection H as <- <-; subst; simpl in *;
      repeat match goal with
      | E : JSON.parse_chars ?x = Some _ |- _ =>
          apply IH in E; [|simpl in *; lia]
      end; simpl in *; lia.
Qed.

Lemma parse_chars_length (s str rest : jsstring) :
  JSON.parse_chars s = Some (str, rest) -> (length rest < length s)%nat.
Proof. apply (parse_chars_length_bounded (length s)); lia. Qed.

Lemma span_digits_length (s : jsstring) (ds : list N) (rest : jsstring) :
  JSON.span_digits s = (ds, rest) -> (length rest <= length s)%nat.
Proof.
  revert ds rest; induction s as [|c s IH]; intros ds rest; simpl.
  - intros [= <- <-]; simpl; lia.
  - destruct (JSON.is_digit c).
    + destruct (JSON.span_digits s) as [ds' rest'] eqn:E.
      intros [= <- <-]. specialize (IH _ _ eq_refl); lia.
    + intros [= <- <-]; simpl; lia.
Qed.

Lemma parse_sign_length (s : jsstring) (neg : bool) (rest : jsstring) :
  JSON.parse_sign s = (neg, rest) -> (length rest <= length s)%nat.
Proof.
  unfold JSON.parse_sign; intros H.
  repeat (break_match_in H; try discriminate);
    injection H as <- <-; simpl; lia.
Qed.

Lemma parse_int_length (s : jsstring) (ds : list N) (rest : jsstring) :
  JSON.parse_int s = Some (ds, rest) -> (length rest < length s)%nat.
Proof.
  unfold JSON.parse_int; intros H.
  destruct s as [|c r]; [discriminate|].
  destruct (c =? JSON.chr "0"); [injection H as <- <-; simpl; lia|].
  destruct (JSON.is_digit c) eqn:D; [|discriminate].
  injection H as H. simpl in H. rewrite D in H.
  destruct (JSON.span_digits r) as [ds' rest'] eqn:E.
  injection H as <- <-. apply span_digits_length in E; simpl; lia.
Qed.

Lemma parse_frac_length (s : jsstring) (ds : list N) (rest : jsstring) :
  JSON.parse_frac s = Some (ds, rest) -> (length rest <= length s)%nat.
Proof.
  unfold JSON.parse_frac; intros H.
  destruct s as [|c r]; [injection H as <- <-; lia|].
  destruct (c =? JSON.chr "."); [|injection H as <- <-; lia].
  destruct (JSON.span_digits r) as [[|d ds'] rest'] eqn:E; [discriminate|].
  injection H as <- <-. apply span_digits_length in E; simpl; lia.
Qed.

Lemma parse_exp_sign_length (s : jsstring) (neg : bool) (rest : jsstring) :
  JSON.parse_exp_sign s = (neg, rest) -> (length rest <= length s)%nat.
Proof.
  unfold JSON.parse_exp_sign; intros H.
  repeat (break_match_in H; try discriminate);
    injection H as <- <-; simpl; lia.
Qed.

Lemma parse_exp_length (s : jsstring) (e : Z) (rest : jsstring) :
  JSON.parse_exp s = Some (e, rest) -> (length rest <= length s)%nat.
Proof.
  unfold JSON.parse_exp; intros H.
  destruct s as [|c r]; [injection H as <- <-; lia|].
  destruct (_ || _); [|injection H as <- <-; lia].
  destruct (JSON.parse_exp_sign r) as [eneg r1] eqn:S.
  destruct (JSON.span_digits r1) as [[|d ds'] rest'] eqn:E; [discriminate|].
  injection H as <- <-.
  apply span_digits_length in E; apply parse_exp_sign_length in S; simpl; lia.
Qed.

Lemma parse_number_length (s : jsstring) (n : number) (rest : jsstring) :
  JSON.parse_number s = Some (n, rest) -> (length rest < length s)%nat.
Proof.
  unfold JSON.parse_number; intros H.
  destruct (JSON.parse_sign s) as [neg s1] eqn:E1.
  destruct (JSON.parse_int s1) as [[ints s2]|] eqn:E2; [|discriminate].
  destruct (JSON.parse_frac s2) as [[fracs s3]|] eqn:E3; [|discriminate].
  destruct (JSON.parse_exp s3) as [[e s4]|] eqn:E4; [|discriminate].
  injection H as <- <-.
  apply parse_sign_length in E1; apply parse_int_length in E2.
  apply parse_frac_length in E3; apply parse_exp_length in E4; lia.
Qed.

Lemma literal_length (word : string) (v v' : JSValue) (s rest : jsstring) :
  js word <> [] ->
  JSON.literal word v s = JSON.Parsed v' rest -> (length rest < length s)%nat.
Proof.
  unfold JSON.literal; intros Hw H.
  destruct (strip_prefix (js word) s) as [r|] eqn:E; [|discriminate].
  injection H as <- <-. apply strip_prefix_length in E.
  destruct (js word); [contradiction|simpl in E; lia].
Qed.

Ltac length_facts :=
  repeat match goal with
  | E : JSON.skip_ws _ = _ :: _ |- _ => apply skip_ws_cons_length in E
  | E : JSON.parse_chars _ = Some _ |- _ => apply parse_chars_length in E
  | E : JSON.parse_number _ = Some _ |- _ => apply parse_number_length in E
  | E : JSON.literal _ _ _ = JSON.Parsed _ _ |- _ =>
      apply literal_length in E; [|vm_compute; discriminate]
  end.

(** A value that is read takes at least one code unit. *)
Lemma parse_value_consumes (fuel : nat) :
  (forall s v rest,
     JSON.parse_value fuel s = JSON.Parsed v rest -> (length rest < length s)%nat)
  /\ (forall s acc v rest,
        JSON.parse_elements fuel s acc = JSON.Parsed v rest ->
        (length rest < length s)%nat)
  /\ (forall s acc v rest,
        JSON.parse_members fuel s acc = JSON.Parsed v rest ->
        (length rest < length s)%nat).
Proof.
  induction fuel as [|fuel (IHv & IHe & IHm)];
    [repeat split; intros; discriminate|].
  repeat split.
  - intros s v rest H. cbn [JSON.parse_value] in H.
    repeat (break_match_in H; try discriminate);
      try (injection H as <- <-);
      try (apply IHe in H); try (apply IHm in H);
      length_facts; simpl in *; lia.
  - intros s acc v rest H. cbn [JSON.parse_elements] in H.
    destruct (JSON.parse_value fuel s) as [v1 r1| |] eqn:E; try discriminate.
    apply IHv in E.
    repeat (break_match_in H; try discriminate);
      try (injection H as <- <-); try (apply IHe in H);
      length_facts; simpl in *; lia.
  - intros s acc v rest H. cbn [JSON.parse_members] in H.
    repeat (break_match_in H; try discriminate);
      try (injection H as <- <-); try (apply IHm in H);
      repeat match goal with
      | E : JSON.parse_value fuel _ = JSON.Parsed _ _ |- _ => apply IHv in E
      end;
      length_facts; simpl in *; lia.
Qed.

Lemma literal_fuel (word : string) (v : JSValue) (s : jsstring) :
  JSON.literal word v s <> JSON.OutOfFuel.
Proof. unfold JSON.literal; destruct (strip_prefix _ _); discriminate. Qed.

(** With twice as much fuel as there are code units, and one more, the
    reader never stops for want of fuel. *)
Lemma parse_value_fuel (fuel : nat) :
  (forall s, (2 * length s + 1 <= fuel)%nat ->
     JSON.parse_value fuel s <> JSON.OutOfFuel)
  /\ (forall s acc, (2 * length s + 2 <= fuel)%nat ->
        JSON.parse_elements fuel s acc <> JSON.OutOfFuel)
  /\ (forall s acc, (2 * length s + 2 <= fuel)%nat ->
        JSON.parse_members fuel s acc <> JSON.OutOfFuel).
Proof.
  induction fuel as [|fuel (IHv & IHe & IHm)];
    [repeat split; intros; lia|].
  repeat split.
  - intros s Hf. cbn [JSON.parse_value].
    destruct (JSON.skip_ws s) as [|c s1] eqn:E; [discriminate|].
    apply skip_ws_cons_length in E.
    repeat (match goal with
            | |- context [match ?x with _ => _ end] => destruct x eqn:?
            end; try discriminate);
      try (apply IHe; lia); try (apply IHm; lia);
      apply literal_fuel.
  - intros s acc Hf. cbn [JSON.parse_elements].
    destruct (JSON.parse_value fuel s) as [v1 r1| |] eqn:E; try discriminate.
    + pose proof (proj1 (parse_value_consumes fuel) _ _ _ E).
      destruct (JSON.skip_ws r1) as [|c r'] eqn:W; [discriminate|].
      apply skip_ws_cons_length in W.
      destruct (c =? JSON.chr ","); [apply IHe; lia|].
      destruct (c =? JSON.chr "]"); discriminate.
    + exfalso; revert E; apply IHv; lia.
  - intros s acc Hf. cbn [JSON.parse_members].
    destruct (JSON.skip_ws s) as [|q s1] eqn:W1; [discriminate|].
    apply skip_ws_cons_length in W1.
    destruct (q =? QUOTE); [|discriminate].
    destruct (JSON.parse_chars s1) as [[key s2]|] eqn:K; [|discriminate].
    apply parse_chars_length in K.
    destruct (JSON.skip_ws s2) as [|colon s3] eqn:W2; [discriminate|].
    apply skip_ws_cons_length in W2.
    destruct (colon =? JSON.chr ":"); [|discriminate].
    destruct (JSON.parse_value fuel s3) as [v1 r1| |] eqn:E; try discriminate.
    + pose proof (proj1 (parse_value_consumes fuel) _ _ _ E).
      destruct (JSON.skip_ws r1) as [|c r'] eqn:W; [discriminate|].
      apply skip_ws_cons_length in W.
      destruct (c =? JSON.chr ","); [apply IHm; lia|].
      destruct (c =? JSON.chr "}"); discriminate.
    + exfalso; revert E; apply IHv; lia.
Qed.

(** [JSON.parse] reports a syntax error or returns a value; it does not
    run out of fuel. *)
Lemma JSON_parse_total (text : jsstring) :
  JSON.parse text = throw SyntaxError \/ exists v, JSON.parse text = ret v.
Proof.
  unfold JSON.parse.
  destruct (JSON.parse_value _ text) as [v rest| |] eqn:E; auto.
  - destruct (JSON.skip_ws rest); eauto.
  - exfalso; revert E; apply (proj1 (parse_value_fuel _)); lia.
Qed.

(** ** More fuel does not change the result *)

Lemma parse_elements_S (fuel : nat) (s : jsstring) (acc : list JSValue) :
  JSON.parse_elements (S fuel) s acc
  = match JSON.parse_value fuel s with
    | JSON.Parsed v r =>
        match JSON.skip_ws r with
        | c :: r' =>
            if c =? JSON.chr "," then JSON.parse_elements fuel r' (acc ++ [v])
            else if c =? JSON.chr "]" then JSON.Parsed (JArray (acc ++ [v])) r'
            else JSON.Malformed
        | [] => JSON.Malformed
        end
    | other => other
    end.
Proof. reflexivity. Qed.

Lemma parse_members_S (fuel : nat) (s : jsstring) (acc : list (jsstring * JSValue)) :
  JSON.parse_members (S fuel) s acc
  = match JSON.skip_ws s with
    | q :: s1 =>
        if q =? QUOTE then
          match JSON.parse_chars s1 with
          | Some (key, s2) =>
              match JSON.skip_ws s2 with
              | colon :: s3 =>
                  if colon =? JSON.chr ":" then
                    match JSON.parse_value fuel s3 with
                    | JSON.Parsed v r =>
                        match JSON.skip_ws r with
                        | c :: r' =>
                            if c =? JSON.chr "," then
                              JSON.parse_members fuel r' (CreateDataProperty acc key v)
                            else if c =? JSON.chr "}" then
                              JSON.Parsed (JObject (CreateDataProperty acc key v)) r'
                            else JSON.Malformed
                        | [] => JSON.Malformed
                        end
                    | other => other
                    end
                  else JSON.Malformed
              | [] => JSON.Malformed
              end
          | None => JSON.Malformed
          end
        else JSON.Malformed
    | [] => JSON.Malformed
    end.
Proof. reflexivity. Qed.

Ltac break_match_goal :=
  match goal with
  | |- context [match ?x with _ => _ end] => destruct x eqn:?
  end.

Lemma parse_value_fuel_S (fuel : nat) :
  (forall s, JSON.parse_value fuel s <> JSON.OutOfFuel ->
     JSON.parse_value (S fuel) s = JSON.parse_value fuel s)
  /\ (forall s acc, JSON.parse_elements fuel s acc <> JSON.OutOfFuel ->
        JSON.parse_elements (S fuel) s acc = JSON.parse_elements fuel s acc)
  /\ (forall s acc, JSON.parse_members fuel s acc <> JSON.OutOfFuel ->
        JSON.parse_members (S fuel) s acc = JSON.parse_members fuel s acc).
Proof.
  induction fuel as [|fuel (IHv & IHe & IHm)];
    [repeat split; intros; contradiction|].
  repeat split.
  - intros s H. cbn [JSON.parse_value] in H |- *.
    repeat (break_match_goal; try reflexivity); auto.
  - intros s acc H.
    rewrite (parse_elements_S (S fuel) s acc), (parse_elements_S fuel s acc).
    rewrite (parse_elements_S fuel s acc) in H.
    destruct (JSON.parse_value fuel s) as [v r| |] eqn:E;
      [| |contradiction]; (rewrite IHv by (rewrite E; discriminate));
      rewrite E; [|reflexivity].
    repeat (break_match_goal; try reflexivity); auto.
  - intros s acc H.
    rewrite (parse_members_S (S fuel) s acc), (parse_members_S fuel s acc).
    rewrite (parse_members_S fuel s acc) in H.
    destruct (JSON.skip_ws s) as [|q s1]; [reflexivity|].
    destruct (q =? QUOTE); [|reflexivity].
    destruct (JSON.parse_chars s1) as [[key s2]|]; [|reflexivity].
    destruct (JSON.skip_ws s2) as [|colon s3]; [reflexivity|].
    destruct (colon =? JSON.chr ":"); [|reflexivity].
    destruct (JSON.parse_value fuel s3) as [v r| |] eqn:E;
      [| |contradiction]; (rewrite IHv by (rewrite E; discriminate));
      rewrite E; [|reflexivity].
    repeat (break_match_goal; try reflexivity); auto.
Qed.

Lemma parse_value_fuel_more (fuel extra : nat) (s : jsstring) :
  JSON.parse_value fuel s <> JSON.OutOfFuel ->
  JSON.parse_value (extra + fuel) s = JSON.parse_value fuel s.
Proof.
  intros H; induction extra as [|extra IH]; [reflexivity|].
  simpl Nat.add. rewrite <- IH.
  apply (proj1 (parse_value_fuel_S _)). now rewrite IH.
Qed.

(** Whatever fuel is enough gives the value [JSON.parse] returns. *)
Lemma JSON_parse_fuel_independent (fuel : nat) (text : jsstring) (v : JSValue)
    (rest : jsstring) :
  JSON.parse_value fuel text = JSON.Parsed v rest ->
  JSON.skip_ws rest = [] ->
  JSON.parse text = ret v.
Proof.
  intros Hv Hrest. unfold JSON.parse.
  assert (Hn : JSON.parse_value (S (2 * length text)) text
               <> JSON.OutOfFuel)
    by (apply (proj1 (parse_value_fuel _)); lia).
  assert (E : JSON.parse_value (S (2 * length text)) text = JSON.Parsed v rest).
  { rewrite <- (parse_value_fuel_more _ fuel) by assumption.
    rewrite Nat.add_comm.
    rewrite (parse_value_fuel_more fuel) by (rewrite Hv; discriminate).
    exact Hv. }
  now rewrite E, Hrest.
Qed.

(** The reader at work. *)
Example JSON_parse_object :
  JSON.parse (jsq " {'a': [1, true, null], 'b': 'xA\n', 'a': {}} ")
  = ret (JObject [(js "a", JObject []); (js "b", JString [120; 65; 10])]).
Proof. vm_compute; reflexivity. Qed.

Example JSON_parse_malformed :
  JSON.parse (jsq "[1,]") = throw SyntaxError
  /\ JSON.parse (jsq "{'a':1,}") = throw SyntaxError
  /\ JSON.parse (jsq "{a:1}") = throw SyntaxError
  /\ JSON.parse (js "01") = throw SyntaxError
  /\ JSON.parse (js "1.") = throw SyntaxError
  /\ JSON.parse (js "NaN") = throw SyntaxError
  /\ JSON.parse (js "nul") = throw SyntaxError
  /\ JSON.parse (js "[] []") = throw SyntaxError
  /\ JSON.parse (js "") = throw SyntaxError.
Proof. vm_compute; repeat split. Qed.

(** Literals are rounded to the nearest binary64 value, ties to even;
    what is too small becomes zero, which is falsy. *)
Example JSON_parse_numbers :
  JSON.parse (js "0.1") = ret (JNumber (S754_finite false 7205759403792794 (-56)))
  /\ JSON.parse (js "9007199254740993")
     = ret (JNumber (S754_finite false 4503599627370496 1))
  /\ JSON.parse (js "-0") = ret (JNumber (S754_zero true))
  /\ JSON.parse (js "1e400") = ret (JNumber (S754_infinity false))
  /\ JSON.parse (js "5e-324") = ret (JNumber (S754_finite false 1 (-1074)))
  /\ JSON.parse (js "2e-324") = ret (JNumber (S754_zero false))
  /\ ToBoolean (JNumber (S754_zero false)) = false.
Proof. vm_compute; repeat split. Qed.

(* ===================================================================== *)
(** * Objects *)
(* ===================================================================== *)

Lemma own_property_CreateDataProperty (props : list (jsstring * JSValue))
    (key : jsstring) (v : JSValue) :
  own_property (CreateDataProperty props key v) key = Some v.
Proof.
  induction props as [|[k w] props IH]; simpl.
  - unfold jsstring_eqb; now rewrite bool_decide_eq_true_2.
  - destruct (jsstring_eqb k key) eqn:E; simpl; rewrite E; [reflexivity|exact IH].
Qed.

Lemma own_property_CreateDataProperty_ne (props : list (jsstring * JSValue))
    (key key' : jsstring) (v : JSValue) :
  key <> key' ->
  own_property (CreateDataProperty props key v) key' = own_property props key'.
Proof.
  intros Hne; induction props as [|[k w] props IH]; simpl.
  - unfold jsstring_eqb; now rewrite bool_decide_eq_false_2.
  - destruct (jsstring_eqb k key) eqn:E; simpl.
    + unfold jsstring_eqb in *. apply bool_decide_eq_true_1 in E as ->.
      now rewrite bool_decide_eq_false_2.
    + now rewrite IH.
Qed.

Lemma has_field_spec (value : JSValue) (key : jsstring) :
  has_field value key = true <-> exists v, field value key = Some v.
Proof.
  unfold has_field; destruct (field value key) as [v|]; split;
    try discriminate; eauto.
  intros [v [=]].
Qed.

(* ===================================================================== *)
(** * parseQRCode *)
(* ===================================================================== *)

Lemma prefix_branch_not_prefixed (qrText : jsstring) :
  startsWith qrText SWACHH_USER_ = false -> prefix_branch qrText = None.
Proof. unfold prefix_branch; now intros ->. Qed.

Lemma parseQRCode_after_prefix (qrText : jsstring) :
  prefix_branch qrText = None ->
  parseQRCode qrText =
    match try_catch (json_branch qrText) (fun _ => None) with
    | Some result => result
    | None => valid_result qrText (JString qrText)
    end.
Proof.
  intros H; unfold parseQRCode, parseQRCode_body; rewrite H.
  now destruct (try_catch (json_branch qrText) _).
Qed.

Lemma Get_field (parsed : JSValue) (key : jsstring) (v : JSValue) :
  field parsed key = Some v -> Get parsed key = ret v.
Proof. destruct parsed; simpl; try discriminate; now intros ->. Qed.

Lemma Get_no_field (parsed : JSValue) (key : jsstring) :
  field parsed key = None ->
  Get parsed key = throw TypeError \/ Get parsed key = ret JUndefined.
Proof. destruct parsed; simpl; auto; intros ->; auto. Qed.

Lemma parseQRCode_strips_prefix (id : jsstring) :
  id <> [] ->
  parseQRCode (SWACHH_USER_ ++ id) = valid_result (SWACHH_USER_ ++ id) (JString id).
Proof.
  intros Hid. unfold parseQRCode, parseQRCode_body, prefix_branch.
  rewrite startsWith_app, replace_leading.
  destruct id as [|c id]; [contradiction|reflexivity].
Qed.

(** A generated code is decoded to the identifier it was generated from. *)
Lemma parseQRCode_generateMockQRCode (userId : jsstring) :
  userId <> [] ->
  QRScanResult.userId (parseQRCode (generateMockQRCode userId))
  = Some (JString userId).
Proof.
  intros H; unfold generateMockQRCode.
  now rewrite parseQRCode_strips_prefix.
Qed.

(** C3.  A text [SWACHH_USER_<id>] with a non-empty [id] is decoded to a
    valid result whose [userId] is [id], which is the text with the first
    occurrence of the prefix removed. *)
Theorem parseQRCode_prefixed (id : jsstring) :
  id <> [] ->
  parseQRCode (SWACHH_USER_ ++ id) = valid_result (SWACHH_USER_ ++ id) (JString id)
  /\ QRScanResult.isValid (parseQRCode (SWACHH_USER_ ++ id)) = true
  /\ QRScanResult.userId (parseQRCode (SWACHH_USER_ ++ id)) = Some (JString id)
  /\ replace (SWACHH_USER_ ++ id) SWACHH_USER_ [] = id.
Proof.
  intros Hid.
  rewrite (parseQRCode_strips_prefix id Hid).
  split; [reflexivity|]. split; [reflexivity|]. split; [reflexivity|].
  apply replace_leading.
Qed.

Lemma parseQRCode_prefixed_witness :
  js "42" <> []
  /\ parseQRCode (js "SWACHH_USER_42")
     = valid_result (js "SWACHH_USER_42") (JString (js "42")).
Proof.
  assert (H : js "42" <> []) by (vm_compute; discriminate).
  split; [exact H|].
  exact (proj1 (parseQRCode_prefixed (js "42") H)).
Defined.

Lemma prefix_branch_Some (qrText : jsstring) (result : QRScanResult.t) :
  prefix_branch qrText = Some result -> exists v, result = valid_result qrText v.
Proof.
  unfold prefix_branch.
  destruct (startsWith _ _); [|discriminate].
  destruct (_ && _); [|discriminate].
  intros [= <-]; eauto.
Qed.

Lemma json_branch_Some (qrText : jsstring) (result : QRScanResult.t) :
  json_branch qrText = ret (Some result) -> exists v, result = valid_result qrText v.
Proof.
  unfold json_branch.
  destruct (JSON.parse qrText) as [e|parsed]; simpl; [discriminate|].
  destruct (userId_or_user_id parsed) as [e|u]; simpl; [discriminate|].
  destruct (ToBoolean u); simpl; [|discriminate].
  intros [= <-]; eauto.
Qed.

(** No path through the body of the outer [try] throws, and every path
    ends in one of the three [isValid: true] results. *)
Lemma parseQRCode_body_valid (qrText : jsstring) :
  exists v, parseQRCode_body qrText = ret (valid_result qrText v).
Proof.
  unfold parseQRCode_body.
  destruct (prefix_branch qrText) as [r|] eqn:Hp.
  - apply prefix_branch_Some in Hp as [v ->]; eauto.
  - destruct (json_branch qrText) as [e|[r|]] eqn:Hj; simpl; eauto.
    apply json_branch_Some in Hj as [v ->]; eauto.
Qed.

(** C4.  [parseQRCode] returns a result for every text; no exception
    reaches the outer [catch], so the result is never the one built there:
    [isValid] is [true] and [error] is absent. *)
Theorem parseQRCode_never_invalid (qrText : jsstring) :
  (exists result, parseQRCode_body qrText = ret result
                  /\ parseQRCode qrText = result)
  /\ QRScanResult.isValid (parseQRCode qrText) = true
  /\ QRScanResult.error (parseQRCode qrText) = None
  /\ QRScanResult.text (parseQRCode qrText) = qrText
  /\ parseQRCode qrText <> invalid_result qrText.
Proof.
  destruct (parseQRCode_body_valid qrText) as [v Hv].
  unfold parseQRCode; rewrite Hv; simpl.
  repeat split; eauto; discriminate.
Qed.

(** C10.  On the bare prefix the stripped identifier is empty, so the
    prefix branch is left without a result; the text is not JSON, so the
    fallback answers: a valid result whose [userId] is the whole text. *)
Theorem parseQRCode_bare_prefix :
  startsWith (js "SWACHH_USER_") SWACHH_USER_ = true
  /\ replace (js "SWACHH_USER_") SWACHH_USER_ [] = []
  /\ prefix_branch (js "SWACHH_USER_") = None
  /\ json_branch (js "SWACHH_USER_") = throw SyntaxError
  /\ parseQRCode (js "SWACHH_USER_")
     = valid_result (js "SWACHH_USER_") (JString (js "SWACHH_USER_"))
  /\ QRScanResult.isValid (parseQRCode (js "SWACHH_USER_")) = true.
Proof. vm_compute; repeat split. Qed.

Lemma userId_or_user_id_no_field (parsed : JSValue) :
  has_field parsed (js "userId") = false ->
  has_field parsed (js "user_id") = false ->
  userId_or_user_id parsed = throw TypeError
  \/ userId_or_user_id parsed = ret JUndefined.
Proof.
  unfold has_field, userId_or_user_id.
  destruct parsed as [| | | | | |props]; simpl; auto.
  destruct (own_property props (js "userId")); [discriminate|].
  destruct (own_property props (js "user_id")); [discriminate|].
  simpl; auto.
Qed.

(** C2.  A non-empty text that does not begin with the prefix, and that
    is not JSON containing a [userId] or [user_id] field, is decoded to a
    valid result whose [userId] is the whole text. *)
Theorem parseQRCode_fallback (qrText : jsstring) :
  qrText <> [] ->
  startsWith qrText SWACHH_USER_ = false ->
  (forall parsed, JSON.parse qrText = ret parsed ->
     has_field parsed (js "userId") = false
     /\ has_field parsed (js "user_id") = false) ->
  parseQRCode qrText = valid_result qrText (JString qrText)
  /\ QRScanResult.isValid (parseQRCode qrText) = true
  /\ QRScanResult.userId (parseQRCode qrText) = Some (JString qrText).
Proof.
  intros _ Hprefix Hjson.
  assert (H : parseQRCode qrText = valid_result qrText (JString qrText)).
  { rewrite parseQRCode_after_prefix by now apply prefix_branch_not_prefixed.
    unfold json_branch.
    destruct (JSON.parse qrText) as [e|parsed]; simpl; [reflexivity|].
    destruct (Hjson parsed eq_refl) as [H1 H2].
    destruct (userId_or_user_id_no_field parsed H1 H2) as [-> | ->];
      reflexivity. }
  rewrite H; auto.
Qed.

Lemma parseQRCode_fallback_witness :
  jsq "{'name':'ward 12'}" <> []
  /\ startsWith (jsq "{'name':'ward 12'}") SWACHH_USER_ = false
  /\ (forall parsed, JSON.parse (jsq "{'name':'ward 12'}") = ret parsed ->
        has_field parsed (js "userId") = false
        /\ has_field parsed (js "user_id") = false)
  /\ parseQRCode (jsq "{'name':'ward 12'}")
     = valid_result (jsq "{'name':'ward 12'}") (JString (jsq "{'name':'ward 12'}")).
Proof.
  assert (H1 : jsq "{'name':'ward 12'}" <> []) by (vm_compute; discriminate).
  assert (H2 : startsWith (jsq "{'name':'ward 12'}") SWACHH_USER_ = false)
    by (vm_compute; reflexivity).
  assert (H3 : forall parsed, JSON.parse (jsq "{'name':'ward 12'}") = ret parsed ->
                 has_field parsed (js "userId") = false
                 /\ has_field parsed (js "user_id") = false).
  { intros parsed H; vm_compute in H.
    injection H as <-; vm_compute; split; reflexivity. }
  split; [exact H1|]. split; [exact H2|]. split; [exact H3|].
  exact (proj1 (parseQRCode_fallback _ H1 H2 H3)).
Defined.

Lemma userId_or_user_id_first (parsed v : JSValue) :
  field parsed (js "userId") = Some v -> ToBoolean v = true ->
  userId_or_user_id parsed = ret v.
Proof.
  intros Hf Hv; unfold userId_or_user_id.
  rewrite (Get_field _ _ _ Hf); simpl.
  unfold or_else; now rewrite Hv.
Qed.

Lemma userId_or_user_id_second (parsed w : JSValue) :
  (forall v, field parsed (js "userId") = Some v -> ToBoolean v = false) ->
  field parsed (js "user_id") = Some w ->
  userId_or_user_id parsed = ret w.
Proof.
  intros Hfalsy Hw; unfold userId_or_user_id.
  destruct parsed as [| | | | | |props]; try discriminate.
  simpl in *.
  destruct (own_property props (js "userId")) as [v|] eqn:E; simpl.
  - unfold or_else; rewrite (Hfalsy v eq_refl), Hw; reflexivity.
  - rewrite Hw; reflexivity.
Qed.

Lemma json_branch_truthy (qrText : jsstring) (parsed u : JSValue) :
  JSON.parse qrText = ret parsed ->
  userId_or_user_id parsed = ret u -> ToBoolean u = true ->
  json_branch qrText = ret (Some (valid_result qrText u)).
Proof.
  intros Hp Hu Ht; unfold json_branch.
  rewrite Hp; simpl; rewrite Hu; simpl; rewrite Ht; simpl.
  reflexivity.
Qed.

(** C1, as it holds.  For a text that does not begin with the prefix and
    that parses as JSON: when the [userId] field is present and truthy the
    result is valid with that value as [userId]; when it is absent or
    falsy and the [user_id] field is present and truthy, the result is
    valid with the value of [user_id]. *)
Theorem parseQRCode_json_truthy (qrText : jsstring) (parsed : JSValue) :
  startsWith qrText SWACHH_USER_ = false ->
  JSON.parse qrText = ret parsed ->
  (forall v, field parsed (js "userId") = Some v -> ToBoolean v = true ->
     parseQRCode qrText = valid_result qrText v)
  /\ (forall w,
        (forall v, field parsed (js "userId") = Some v -> ToBoolean v = false) ->
        field parsed (js "user_id") = Some w -> ToBoolean w = true ->
        parseQRCode qrText = valid_result qrText w).
Proof.
  intros Hprefix Hparse.
  apply prefix_branch_not_prefixed in Hprefix.
  split.
  - intros v Hf Hv.
    rewrite (parseQRCode_after_prefix _ Hprefix).
    rewrite (json_branch_truthy qrText parsed v); auto.
    now apply userId_or_user_id_first.
  - intros w Hfalsy Hf Hw.
    rewrite (parseQRCode_after_prefix _ Hprefix).
    rewrite (json_branch_truthy qrText parsed w); auto.
    now apply userId_or_user_id_second.
Qed.

Lemma parseQRCode_json_truthy_witness :
  startsWith (jsq "{'userId':'u7','user_id':'u42'}") SWACHH_USER_ = false
  /\ JSON.parse (jsq "{'userId':'u7','user_id':'u42'}")
     = ret (JObject [(js "userId", JString (js "u7"));
                     (js "user_id", JString (js "u42"))])
  /\ parseQRCode (jsq "{'userId':'u7','user_id':'u42'}")
     = valid_result (jsq "{'userId':'u7','user_id':'u42'}") (JString (js "u7")).
Proof.
  assert (H1 : startsWith (jsq "{'userId':'u7','user_id':'u42'}") SWACHH_USER_
               = false) by (vm_compute; reflexivity).
  assert (H2 : JSON.parse (jsq "{'userId':'u7','user_id':'u42'}")
               = ret (JObject [(js "userId", JString (js "u7"));
                               (js "user_id", JString (js "u42"))]))
    by (vm_compute; reflexivity).
  split; [exact H1|]. split; [exact H2|].
  apply (proj1 (parseQRCode_json_truthy _ _ H1 H2) (JString (js "u7")));
    vm_compute; reflexivity.
Defined.

(** C1, as stated, fails.  The JSON text of an object whose only field is
    [userId], with the empty string for its value, does not begin with the
    prefix and parses as JSON containing a [userId] field; the decoder
    does not return that value: the test on line 43 is a truth test, the
    empty string does not pass it, and the fallback returns the whole
    text. *)
Lemma parseQRCode_json_empty_userId :
  startsWith (jsq "{'userId':''}") SWACHH_USER_ = false
  /\ JSON.parse (jsq "{'userId':''}") = ret (JObject [(js "userId", JString [])])
  /\ field (JObject [(js "userId", JString [])]) (js "userId") = Some (JString [])
  /\ QRScanResult.userId (parseQRCode (jsq "{'userId':''}"))
     = Some (JString (jsq "{'userId':''}"))
  /\ QRScanResult.userId (parseQRCode (jsq "{'userId':''}")) <> Some (JString []).
Proof. vm_compute; repeat split; discriminate. Qed.

(** The same truth test decides the precedence: a falsy [userId] gives way
    to [user_id] although both fields are present. *)
Example parseQRCode_json_falsy_userId_yields :
  parseQRCode (jsq "{'userId':0,'user_id':'u42'}")
  = valid_result (jsq "{'userId':0,'user_id':'u42'}") (JString (js "u42")).
Proof. vm_compute; reflexivity. Qed.

(* ===================================================================== *)
(** * Generated identifiers *)
(* ===================================================================== *)

Lemma js_inj (a b : string) : js a = js b -> a = b.
Proof.
  unfold js; intros H.
  rewrite <- (string_of_list_ascii_of_string a), <- (string_of_list_ascii_of_string b).
  f_equal. revert H.
  generalize (list_ascii_of_string a) (list_ascii_of_string b).
  intros l; induction l as [|x l IH]; intros [|y l']; simpl; try discriminate;
    [reflexivity|].
  intros [= Hxy Hl]. f_equal; [|now apply IH].
  rewrite <- (ascii_N_embedding x), <- (ascii_N_embedding y). now rewrite Hxy.
Qed.

Lemma Z_to_jsstring_inj (a b : Z) : Z_to_jsstring a = Z_to_jsstring b -> a = b.
Proof.
  unfold Z_to_jsstring; intros H. apply js_inj in H.
  apply DecimalZ.to_int_inj.
  assert (Hnn : forall z, Z.to_int z <> Decimal.Pos Decimal.Nil
                          /\ Z.to_int z <> Decimal.Neg Decimal.Nil).
  { intros [|p|p]; simpl; split; try discriminate; intros [= E];
      now apply DecimalPos.Unsigned.to_uint_nonnil in E. }
  pose proof (NilZero.isi (Z.to_int a) (proj1 (Hnn a)) (proj2 (Hnn a))) as Ha.
  pose proof (NilZero.isi (Z.to_int b) (proj1 (Hnn b)) (proj2 (Hnn b))) as Hb.
  rewrite H in Ha. congruence.
Qed.

Lemma string_of_uint_digits (d : Decimal.uint) :
  Forall (fun c => c <> 95) (js (NilEmpty.string_of_uint d)).
Proof.
  induction d; simpl; constructor; auto; discriminate.
Qed.

(** The decimal rendering of an integer contains no underscore. *)
Lemma Z_to_jsstring_no_underscore (z : Z) :
  Forall (fun c => c <> 95) (Z_to_jsstring z).
Proof.
  assert (Hu : forall d, Forall (fun c => c <> 95) (js (NilZero.string_of_uint d))).
  { intros d; destruct d; try apply (string_of_uint_digits (_ _)).
    repeat constructor; discriminate. }
  unfold Z_to_jsstring.
  destruct (Z.to_int z) as [d|d]; simpl NilZero.string_of_int; [apply Hu|].
  change (js (String "-" (NilZero.string_of_uint d)))
    with (45 :: js (NilZero.string_of_uint d)).
  constructor; [discriminate|apply Hu].
Qed.

(** Two texts cut at their first separator agree part by part. *)
Lemma split_at_first {A} (sep : A) (a a' b b' : list A) :
  Forall (fun c => c <> sep) a -> Forall (fun c => c <> sep) a' ->
  a ++ sep :: b = a' ++ sep :: b' -> a = a' /\ b = b'.
Proof.
  intros Ha; revert a'; induction Ha as [|x a Hx Ha IH];
    intros a' Ha' H; destruct Ha' as [|y a' Hy Ha']; simpl in H.
  - now injection H.
  - injection H as -> _; contradiction.
  - injection H as -> _; contradiction.
  - injection H as -> H. destruct (IH _ Ha' H) as [-> ->]; auto.
Qed.

(** Under one tag, two identifiers are the same exactly when the clock
    and the nine characters kept of the random draw are. *)
Lemma generate_id_same (tag : string) (env1 env2 : Env.t) :
  generate_id tag env1 = generate_id tag env2
  <-> Env.Date_now env1 = Env.Date_now env2
      /\ substr (Env.Math_random_toString36 env1) 2 9
         = substr (Env.Math_random_toString36 env2) 2 9.
Proof.
  unfold generate_id; split.
  - intros H. apply app_inv_head in H.
    change (js "_") with [95] in H. simpl in H. injection H as H.
    apply split_at_first in H as [Hn Hs];
      try apply Z_to_jsstring_no_underscore.
    split; [now apply Z_to_jsstring_inj|exact Hs].
  - now intros [-> ->].
Qed.

(** X1.  Two identifiers generated under one tag coincide exactly when
    the clock read the same millisecond and the random draws agree on the
    nine characters kept; identifiers of logs, reports and scans never
    coincide with one another. *)
Theorem generate_id_collision (tag : string) (env1 env2 : Env.t) :
  (generate_id tag env1 = generate_id tag env2
   <-> Env.Date_now env1 = Env.Date_now env2
       /\ substr (Env.Math_random_toString36 env1) 2 9
          = substr (Env.Math_random_toString36 env2) 2 9)
  /\ generate_id "log" env1 <> generate_id "report" env2
  /\ generate_id "log" env1 <> generate_id "scan" env2
  /\ generate_id "report" env1 <> generate_id "scan" env2.
Proof.
  split; [|repeat split; discriminate].
  unfold generate_id; split.
  - intros H. apply app_inv_head in H.
    change (js "_") with [95] in H. simpl in H. injection H as H.
    apply split_at_first in H as [Hn Hs];
      try apply Z_to_jsstring_no_underscore.
    split; [now apply Z_to_jsstring_inj|exact Hs].
  - now intros [-> ->].
Qed.

(* ===================================================================== *)
(** * The event store *)
(* ===================================================================== *)

(** C7.  After [logout], [getCurrentCollector] returns [null], whatever
    the store held before. *)
Theorem logout_clears_current_collector (st : Storage.t) :
  CollectorAPI.getCurrentCollector (CollectorAPI.logout st) = None
  /\ LocalStorage.getCurrentCollector (LocalStorage.clearCurrentCollector st) = None.
Proof. split; reflexivity. Qed.

(** C9.  Clearing the current collector, through [logout] or through
    [clearCurrentCollector], leaves the collection logs, the dumping
    reports and the scan history as they were: the cells, and the lists
    read from them. *)
Theorem clearCurrentCollector_frame (st : Storage.t) :
  CollectorAPI.logout st = LocalStorage.clearCurrentCollector st
  /\ Storage.collection_logs (CollectorAPI.logout st) = Storage.collection_logs st
  /\ Storage.dumping_reports (CollectorAPI.logout st) = Storage.dumping_reports st
  /\ Storage.scan_history (CollectorAPI.logout st) = Storage.scan_history st
  /\ LocalStorage.getCollectionLogs (CollectorAPI.logout st)
     = LocalStorage.getCollectionLogs st
  /\ LocalStorage.getIllegalDumpingReports (CollectorAPI.logout st)
     = LocalStorage.getIllegalDumpingReports st
  /\ ScanHistoryManager.getHistory (CollectorAPI.logout st)
     = ScanHistoryManager.getHistory st
  /\ (forall collectorId,
        CollectorAPI.getCollectionLogs collectorId (CollectorAPI.logout st)
        = CollectorAPI.getCollectionLogs collectorId st)
  /\ (forall collectorId,
        CollectorAPI.getDumpingReports collectorId (CollectorAPI.logout st)
        = CollectorAPI.getDumpingReports collectorId st).
Proof. destruct st; repeat split; reflexivity. Qed.

Lemma addCollectionLog_logs (env : Env.t) (log : CollectionLog.without_id)
    (st : Storage.t) :
  LocalStorage.getCollectionLogs (LocalStorage.addCollectionLog env log st).2
  = LocalStorage.getCollectionLogs st
    ++ [CollectionLog.JSON_roundtrip (LocalStorage.addCollectionLog env log st).1].
Proof. reflexivity. Qed.

Lemma getCollectionLogs_keeps (collectorId : jsstring) (log : CollectionLog.t)
    (st : Storage.t) :
  In log (LocalStorage.getCollectionLogs st) ->
  CollectionLog.collector_id log = collectorId ->
  In log (CollectorAPI.getCollectionLogs (Some collectorId) st).
Proof.
  intros Hin Hid; unfold CollectorAPI.getCollectionLogs.
  destruct (ToBoolean (JString collectorId)); [|assumption].
  apply list_elem_of_In, list_elem_of_filter; split.
  - exact Hid.
  - now apply list_elem_of_In.
Qed.

(** A number that JSON text carries comes back as it is. *)
Lemma JSON_number_kept (x : number) :
  JSON_number x = Some x
  <-> Number_isFinite x = true /\ x <> S754_zero true.
Proof.
  destruct x as [[|]| | |s m e]; simpl; split;
    try (intros [H1 H2]); try discriminate; try tauto;
    intros _; split; try reflexivity; discriminate.
Qed.

Lemma JSON_number_idempotent (x : number) :
  JSON_nullable (JSON_number x) = JSON_number x.
Proof. now destruct x. Qed.

Lemma JSON_nullable_idempotent (x : option number) :
  JSON_nullable (JSON_nullable x) = JSON_nullable x.
Proof. destruct x as [v|]; [apply JSON_number_idempotent|reflexivity]. Qed.

Lemma CollectionLog_JSON_roundtrip_kept (data : CollectionLog.without_id)
    (new_id : jsstring) :
  JSON_number (CollectionLog.latitude' data) = Some (CollectionLog.latitude' data) ->
  JSON_number (CollectionLog.longitude' data) = Some (CollectionLog.longitude' data) ->
  CollectionLog.JSON_roundtrip (CollectionLog.with_id data new_id)
  = CollectionLog.with_id data new_id.
Proof.
  intros Hlat Hlng. unfold CollectionLog.JSON_roundtrip, CollectionLog.with_id.
  simpl. now rewrite Hlat, Hlng.
Qed.

(** C5, as it holds.  [logCollection] returns the data with the
    identifier [log_<Date.now()>_<random>]; the next log gets the same
    identifier exactly when it meets the same millisecond and the same
    nine random characters.  The record is appended to the stored logs as
    JSON text keeps it: every field as it was, but a coordinate that is
    NaN or infinite read back as [null] and a negative zero as [0]; that
    record is what listing the logs of its collector returns.  When both
    coordinates are numbers that JSON text carries, the record listed is
    the record returned. *)
Theorem logCollection_then_getCollectionLogs (env : Env.t)
    (data : CollectionLog.without_id) (st : Storage.t) :
  let newLog := (CollectorAPI.logCollection env data st).1 in
  let st' := (CollectorAPI.logCollection env data st).2 in
  let stored := CollectionLog.JSON_roundtrip newLog in
  (CollectionLog.id newLog = Some (generate_id "log" env)
   /\ CollectionLog.collector_id newLog = CollectionLog.collector_id' data
   /\ CollectionLog.user_id newLog = CollectionLog.user_id' data
   /\ CollectionLog.waste_type newLog = CollectionLog.waste_type' data
   /\ CollectionLog.timestamp newLog = CollectionLog.timestamp' data
   /\ CollectionLog.latitude newLog = Some (CollectionLog.latitude' data)
   /\ CollectionLog.longitude newLog = Some (CollectionLog.longitude' data)
   /\ CollectionLog.notes newLog = CollectionLog.notes' data)
  /\ (forall env2 data2,
        CollectionLog.id (CollectorAPI.logCollection env2 data2 st').1
        = CollectionLog.id newLog
        <-> Env.Date_now env2 = Env.Date_now env
            /\ substr (Env.Math_random_toString36 env2) 2 9
               = substr (Env.Math_random_toString36 env) 2 9)
  /\ LocalStorage.getCollectionLogs st'
     = LocalStorage.getCollectionLogs st ++ [stored]
  /\ In stored
       (CollectorAPI.getCollectionLogs (Some (CollectionLog.collector_id' data)) st')
  /\ (CollectionLog.id stored = CollectionLog.id newLog
      /\ CollectionLog.collector_id stored = CollectionLog.collector_id newLog
      /\ CollectionLog.user_id stored = CollectionLog.user_id newLog
      /\ CollectionLog.waste_type stored = CollectionLog.waste_type newLog
      /\ CollectionLog.timestamp stored = CollectionLog.timestamp newLog
      /\ CollectionLog.notes stored = CollectionLog.notes newLog
      /\ CollectionLog.latitude stored = JSON_number (CollectionLog.latitude' data)
      /\ CollectionLog.longitude stored = JSON_number (CollectionLog.longitude' data))
  /\ (JSON_number (CollectionLog.latitude' data) = Some (CollectionLog.latitude' data) ->
      JSON_number (CollectionLog.longitude' data) = Some (CollectionLog.longitude' data) ->
      stored = newLog
      /\ In newLog
           (CollectorAPI.getCollectionLogs
              (Some (CollectionLog.collector_id' data)) st')).
Proof.
  intros newLog st' stored.
  assert (Hin : In stored (LocalStorage.getCollectionLogs st')).
  { subst stored newLog st'; unfold CollectorAPI.logCollection.
    rewrite addCollectionLog_logs. apply in_or_app; right; now left. }
  assert (Hlisted : In stored
            (CollectorAPI.getCollectionLogs
               (Some (CollectionLog.collector_id' data)) st')).
  { apply getCollectionLogs_keeps; [exact Hin|reflexivity]. }
  split; [repeat split|].
  split.
  { intros env2 data2. subst newLog.
    change (Some (generate_id "log" env2) = Some (generate_id "log" env)
            <-> Env.Date_now env2 = Env.Date_now env
                /\ substr (Env.Math_random_toString36 env2) 2 9
                   = substr (Env.Math_random_toString36 env) 2 9).
    rewrite <- (generate_id_same "log"). split; congruence. }
  split; [reflexivity|].
  split; [exact Hlisted|].
  split; [repeat split|].
  intros Hlat Hlng.
  assert (E : stored = newLog)
    by (apply CollectionLog_JSON_roundtrip_kept; assumption).
  split; [exact E|]. now rewrite <- E.
Qed.

(** C5, as stated, fails.  A collection logged with the negative zero for
    its latitude and NaN for its longitude is returned with these two
    numbers and listed with [0] and [null]: the record returned is not
    among the records listed for its collector.  And the identifier is not
    new: a second collection logged at the same reading of the clock and
    with the same draw gets the identifier of the first. *)
Lemma logCollection_returned_not_listed :
  CollectionLog.latitude (CollectorAPI.logCollection sample_env off_grid_collection
                            Storage.empty).1 = Some (S754_zero true)
  /\ CollectionLog.longitude (CollectorAPI.logCollection sample_env off_grid_collection
                                Storage.empty).1 = Some S754_nan
  /\ map (fun log => (CollectionLog.latitude log, CollectionLog.longitude log))
       (CollectorAPI.getCollectionLogs (Some (js "C1"))
          (CollectorAPI.logCollection sample_env off_grid_collection Storage.empty).2)
     = [(Some Num.zero, None)]
  /\ ~ In (CollectorAPI.logCollection sample_env off_grid_collection Storage.empty).1
         (CollectorAPI.getCollectionLogs (Some (js "C1"))
            (CollectorAPI.logCollection sample_env off_grid_collection
               Storage.empty).2)
  /\ CollectionLog.id
       (CollectorAPI.logCollection sample_env off_grid_collection
          (CollectorAPI.logCollection sample_env off_grid_collection
             Storage.empty).2).1
     = CollectionLog.id
         (CollectorAPI.logCollection sample_env off_grid_collection Storage.empty).1.
Proof.
  split; [reflexivity|]. split; [reflexivity|]. split; [reflexivity|].
  split; [|reflexivity].
  vm_compute. intros [H|[]]. discriminate H.
Qed.

Example generate_id_sample :
  generate_id "log" sample_env = js "log_1700000000123_4fzyo82mv".
Proof. vm_compute; reflexivity. Qed.

(** An empty [collectorId] is falsy: the list comes back unfiltered. *)
Lemma getCollectionLogs_empty_id (st : Storage.t) :
  CollectorAPI.getCollectionLogs (Some []) st = LocalStorage.getCollectionLogs st
  /\ CollectorAPI.getCollectionLogs None st = LocalStorage.getCollectionLogs st.
Proof. split; reflexivity. Qed.

Lemma getCollectionLogs_filters (collectorId : jsstring) (log : CollectionLog.t)
    (st : Storage.t) :
  collectorId <> [] ->
  In log (CollectorAPI.getCollectionLogs (Some collectorId) st) ->
  CollectionLog.collector_id log = collectorId.
Proof.
  intros Hne; unfold CollectorAPI.getCollectionLogs.
  destruct collectorId as [|c cs]; [contradiction|]; simpl.
  intros Hin; apply list_elem_of_In, list_elem_of_filter in Hin as [H _].
  exact H.
Qed.

(** ** Scan history *)

Lemma clearSyncedScans_history (st : Storage.t) :
  ScanHistoryManager.getHistory (ScanHistoryManager.clearSyncedScans st)
  = ScanHistoryManager.getUnsyncedScans st.
Proof. reflexivity. Qed.

Lemma filter_singleton_split {A} (P : A -> Prop) `{forall x, Decision (P x)}
    (l1 l2 : list A) (x : A) :
  P x ->
  length (filter P (l1 ++ x :: l2)) = 1%nat ->
  (forall y, y ∈ l1 -> ~ P y) /\ (forall y, y ∈ l2 -> ~ P y).
Proof.
  intros Hx Hlen.
  rewrite filter_app, filter_cons_True, length_app in Hlen by assumption.
  simpl in Hlen.
  assert (H1 : filter P l1 = []) by (apply length_zero_iff_nil; lia).
  assert (H2 : filter P l2 = []) by (apply length_zero_iff_nil; lia).
  split; intros y Hy Py.
  - exact (filter_nil_not_elem_of P l1 y H1 Py Hy).
  - exact (filter_nil_not_elem_of P l2 y H2 Py Hy).
Qed.

(** When [e] is the one entry with its identifier, [markAsSynced] flips
    that entry and no other. *)
Lemma markAsSynced_unique (st : Storage.t) (e : ScanHistory.t) :
  e ∈ ScanHistoryManager.getHistory st ->
  length (filter (fun s => ScanHistory.id s = ScanHistory.id e)
            (ScanHistoryManager.getHistory st)) = 1%nat ->
  exists l1 l2,
    ScanHistoryManager.getHistory st = l1 ++ e :: l2
    /\ ScanHistoryManager.getHistory
         (ScanHistoryManager.markAsSynced (ScanHistory.id e) st)
       = l1 ++ ScanHistory.set_synced e true :: l2
    /\ (forall s, s ∈ l1 -> ScanHistory.id s <> ScanHistory.id e)
    /\ (forall s, s ∈ l2 -> ScanHistory.id s <> ScanHistory.id e).
Proof.
  intros Hin Hone.
  unfold ScanHistoryManager.markAsSynced.
  set (history := ScanHistoryManager.getHistory st) in *.
  destruct (list_find_elem_of (fun s => ScanHistory.id s = ScanHistory.id e)
              history e Hin eq_refl) as [[i x] Hfind].
  rewrite Hfind.
  apply list_find_Some in Hfind as (Hi & Hx & _).
  pose proof (take_drop_middle _ _ _ Hi) as Hsplit.
  rewrite <- Hsplit in Hone.
  destruct (filter_singleton_split _ _ _ _ Hx Hone) as [Hl1 Hl2].
  assert (x = e) as ->.
  { rewrite <- Hsplit in Hin.
    apply elem_of_app in Hin as [Hin|Hin].
    - now destruct (Hl1 e Hin).
    - apply elem_of_cons in Hin as [->|Hin]; [reflexivity|].
      now destruct (Hl2 e Hin). }
  exists (take i history), (drop (S i) history).
  repeat split; auto.
  unfold ScanHistoryManager.getHistory, ScanHistoryManager.saveHistory; simpl.
  apply insert_take_drop. now apply lookup_lt_Some in Hi.
Qed.

Lemma markAsSynced_unique_unsynced (st : Storage.t) (e s : ScanHistory.t) :
  e ∈ ScanHistoryManager.getHistory st ->
  length (filter (fun s => ScanHistory.id s = ScanHistory.id e)
            (ScanHistoryManager.getHistory st)) = 1%nat ->
  s ∈ ScanHistoryManager.getUnsyncedScans
        (ScanHistoryManager.markAsSynced (ScanHistory.id e) st) ->
  ScanHistory.id s <> ScanHistory.id e.
Proof.
  intros Hin Hone Hs.
  destruct (markAsSynced_unique st e Hin Hone) as (l1 & l2 & _ & Hnew & Hl1 & Hl2).
  unfold ScanHistoryManager.getUnsyncedScans in Hs. rewrite Hnew in Hs.
  apply list_elem_of_filter in Hs as [Hsync Hs].
  apply elem_of_app in Hs as [Hs|Hs]; [now apply Hl1|].
  apply elem_of_cons in Hs as [->|Hs]; [discriminate|now apply Hl2].
Qed.

(** C6, as it holds.  When [e] is the only entry of the history with its
    identifier: after [markAsSynced(e.id)] no entry with that identifier,
    so not [e] either, is among the unsynced scans; and after
    [clearSyncedScans()] none is in the history. *)
Theorem markAsSynced_then_clearSyncedScans (st : Storage.t) (e : ScanHistory.t) :
  In e (ScanHistoryManager.getHistory st) ->
  length (filter (fun s => ScanHistory.id s = ScanHistory.id e)
            (ScanHistoryManager.getHistory st)) = 1%nat ->
  let st1 := ScanHistoryManager.markAsSynced (ScanHistory.id e) st in
  let st2 := ScanHistoryManager.clearSyncedScans st1 in
  (forall s, In s (ScanHistoryManager.getUnsyncedScans st1) ->
             ScanHistory.id s <> ScanHistory.id e)
  /\ ~ In e (ScanHistoryManager.getUnsyncedScans st1)
  /\ (forall s, In s (ScanHistoryManager.getHistory st2) ->
                ScanHistory.id s <> ScanHistory.id e)
  /\ ~ In e (ScanHistoryManager.getHistory st2).
Proof.
  intros Hin Hone st1 st2.
  apply list_elem_of_In in Hin.
  assert (H : forall s, In s (ScanHistoryManager.getUnsyncedScans st1) ->
                        ScanHistory.id s <> ScanHistory.id e).
  { intros s Hs; apply list_elem_of_In in Hs.
    now apply (markAsSynced_unique_unsynced st e s). }
  subst st2; rewrite clearSyncedScans_history.
  repeat split; auto; intros He; now apply (H e He).
Qed.

(** Pairwise distinct identifiers make every entry the only one with its
    identifier. *)
Lemma unique_id_of_NoDup (history : list ScanHistory.t) (e : ScanHistory.t) :
  NoDup (map ScanHistory.id history) ->
  e ∈ history ->
  length (filter (fun s => ScanHistory.id s = ScanHistory.id e) history) = 1%nat.
Proof.
  induction history as [|x history IH]; intros Hnd Hin.
  - now apply elem_of_nil in Hin.
  - simpl in Hnd. apply NoDup_cons in Hnd as [Hx Hnd].
    destruct (decide (ScanHistory.id x = ScanHistory.id e)) as [Heq|Hne].
    + rewrite filter_cons_True by assumption. simpl. f_equal.
      apply length_zero_iff_nil.
      destruct (filter _ history) as [|y l] eqn:F; [reflexivity|exfalso].
      assert (Hy : y ∈ filter (fun s => ScanHistory.id s = ScanHistory.id e) history)
        by (rewrite F; left).
      apply list_elem_of_filter in Hy as [Hy1 Hy2].
      apply Hx. rewrite Heq, <- Hy1.
      now apply (list_elem_of_fmap_2 ScanHistory.id).
    + rewrite filter_cons_False by assumption.
      apply elem_of_cons in Hin as [->|Hin]; [congruence|auto].
Qed.

Lemma markAsSynced_then_clearSyncedScans_witness :
  let st := ScanHistoryManager.saveHistory [scan_a; scan_b] Storage.empty in
  In scan_b (ScanHistoryManager.getHistory st)
  /\ length (filter (fun s => ScanHistory.id s = ScanHistory.id scan_b)
               (ScanHistoryManager.getHistory st)) = 1%nat
  /\ ~ In scan_b (ScanHistoryManager.getUnsyncedScans
                    (ScanHistoryManager.markAsSynced (ScanHistory.id scan_b) st))
  /\ ~ In scan_b (ScanHistoryManager.getHistory
                    (ScanHistoryManager.clearSyncedScans
                       (ScanHistoryManager.markAsSynced (ScanHistory.id scan_b) st))).
Proof.
  intros st.
  assert (Hin : In scan_b (ScanHistoryManager.getHistory st))
    by (simpl; auto).
  assert (Hone : length (filter (fun s => ScanHistory.id s = ScanHistory.id scan_b)
                           (ScanHistoryManager.getHistory st)) = 1%nat)
    by (vm_compute; reflexivity).
  pose proof (markAsSynced_then_clearSyncedScans st scan_b Hin Hone)
    as (_ & H1 & _ & H2).
  split; [exact Hin|]. split; [exact Hone|]. split; [exact H1|exact H2].
Defined.

(** C6, as stated, fails.  Two scans added within one millisecond and
    with the same random draw carry the same identifier, and
    [markAsSynced] flips the first entry with the identifier only.  The
    second scan is still among the unsynced scans, and still in the history
    after [clearSyncedScans]. *)
Lemma markAsSynced_shared_id :
  let st := store_after_second_scan in
  let e := second_scan in
  let st1 := ScanHistoryManager.markAsSynced (ScanHistory.id e) st in
  let st2 := ScanHistoryManager.clearSyncedScans st1 in
  In e (ScanHistoryManager.getHistory st)
  /\ map ScanHistory.id (ScanHistoryManager.getHistory st)
     = [js "scan_1700000000123_4fzyo82mv"; js "scan_1700000000123_4fzyo82mv"]
  /\ map ScanHistory.userId (ScanHistoryManager.getHistory st) = [js "u1"; js "u2"]
  /\ ScanHistory.userId e = js "u2"
  /\ map ScanHistory.synced (ScanHistoryManager.getHistory st1) = [true; false]
  /\ In e (ScanHistoryManager.getUnsyncedScans st1)
  /\ In e (ScanHistoryManager.getHistory st2).
Proof. vm_compute; repeat split; auto. Qed.

(* ===================================================================== *)
(** * Numbers: sign symmetry of the IEEE-754 operations *)
(* ===================================================================== *)













(* ===================================================================== *)
(** * calculateDistance *)
(* ===================================================================== *)

Section Haversine.

(** The host's [Math].  Its sine is odd, as the sine of the fdlibm
    family is; the three values are the ones ECMA-262 fixes. *)
Variable M : Math.t.
Hypothesis sin_odd : forall x, Math.sin M (Num.opp x) = Num.opp (Math.sin M x).
Hypothesis sin_zero : Math.sin M Num.zero = Num.zero.
Hypothesis cos_zero : Math.cos M Num.zero = Num.one.
Hypothesis atan2_zero_one : Math.atan2 M Num.zero Num.one = Num.zero.







End Haversine.



(** The hypothesis on the sine is used: on a host whose sine is not odd
    the two orders give different distances. *)
Example calculateDistance_lopsided :
  Math.sin lopsided_Math (Num.opp (Num.of_Z 1))
  <> Num.opp (Math.sin lopsided_Math (Num.of_Z 1))
  /\ Number_equal
       (calculateDistance lopsided_Math Num.zero Num.zero (Num.of_Z 1) Num.zero)
       (calculateDistance lopsided_Math (Num.of_Z 1) Num.zero Num.zero Num.zero)
     = false
  /\ calculateDistance lopsided_Math (Num.of_Z 1) Num.zero Num.zero Num.zero
     = Num.zero.
Proof. vm_compute. repeat split. discriminate. Qed.

(* ===================================================================== *)
(** * trim *)
(* ===================================================================== *)

Lemma trimStart_head (s r : jsstring) (c : code_unit) :
  trimStart s = c :: r -> is_white_space c = false.
Proof.
  induction s as [|a s IH]; simpl; [discriminate|].
  destruct (is_white_space a) eqn:E; [exact IH|].
  now intros [= <- <-].
Qed.

Lemma trimStart_nil (s : jsstring) :
  trimStart s = [] <-> forallb is_white_space s = true.
Proof.
  induction s as [|a s IH]; simpl; [tauto|].
  destruct (is_white_space a); simpl; [exact IH|].
  split; discriminate.
Qed.

Lemma trimStart_keeps (s : jsstring) (c : code_unit) :
  is_white_space c = false -> trimStart (c :: s) = c :: s.
Proof. now simpl; intros ->. Qed.

Lemma trimStart_snoc (s : jsstring) (c : code_unit) :
  is_white_space c = false -> trimStart (s ++ [c]) = trimStart s ++ [c].
Proof.
  intros Hc; induction s as [|a s IH]; simpl; [now rewrite Hc|].
  now destruct (is_white_space a).
Qed.

Lemma trimEnd_cons (s : jsstring) (c : code_unit) :
  is_white_space c = false -> trimEnd (c :: s) = c :: trimEnd s.
Proof.
  intros Hc; unfold trimEnd; simpl.
  now rewrite trimStart_snoc, rev_app_distr.
Qed.

Lemma trimEnd_last (s r : jsstring) (c : code_unit) :
  trimEnd s = r ++ [c] -> is_white_space c = false.
Proof.
  unfold trimEnd; intros H.
  apply (f_equal (@rev _)) in H.
  rewrite rev_involutive, rev_app_distr in H; simpl in H.
  now apply trimStart_head in H.
Qed.

(** A trimmed string neither begins nor ends with white space. *)
Lemma trim_ends (s : jsstring) :
  (forall c r, trim s = c :: r -> is_white_space c = false)
  /\ (forall c r, trim s = r ++ [c] -> is_white_space c = false).
Proof.
  unfold trim; split; intros c r H.
  - destruct (trimStart s) as [|a t] eqn:E; [discriminate|].
    pose proof (trimStart_head _ _ _ E) as Ha.
    rewrite (trimEnd_cons _ _ Ha) in H. now injection H as <- _.
  - now apply trimEnd_last in H.
Qed.

Lemma trim_nil (s : jsstring) :
  trim s = [] <-> forallb is_white_space s = true.
Proof.
  unfold trim. rewrite <- trimStart_nil.
  destruct (trimStart s) as [|a t] eqn:E; [tauto|].
  pose proof (trimStart_head _ _ _ E) as Ha.
  rewrite (trimEnd_cons _ _ Ha). split; discriminate.
Qed.

Lemma trimEnd_id (s : jsstring) :
  (forall c r, s = r ++ [c] -> is_white_space c = false) -> trimEnd s = s.
Proof.
  intros H; unfold trimEnd.
  destruct (rev s) as [|c t] eqn:E.
  - apply (f_equal (@rev _)) in E. now rewrite rev_involutive in E.
  - assert (Hs : s = rev t ++ [c]).
    { apply (f_equal (@rev _)) in E. now rewrite rev_involutive in E. }
    rewrite (trimStart_keeps _ _ (H _ _ Hs)). now rewrite Hs.
Qed.

Lemma trim_idempotent (s : jsstring) : trim (trim s) = trim s.
Proof.
  destruct (trim_ends s) as [Hhead Hlast].
  unfold trim at 1.
  assert (Hstart : trimStart (trim s) = trim s).
  { destruct (trim s) as [|c r] eqn:E; [reflexivity|].
    apply trimStart_keeps. now apply (Hhead c r). }
  rewrite Hstart. now apply trimEnd_id.
Qed.

(* ===================================================================== *)
(** * Logging in and out *)
(* ===================================================================== *)

Lemma login_result (collectorId : jsstring) (st : Storage.t) :
  Collector.id (CollectorAPI.login collectorId st).1 = collectorId
  /\ CollectorAPI.getCurrentCollector (CollectorAPI.login collectorId st).2
     = Some (CollectorAPI.login collectorId st).1.
Proof.
  unfold CollectorAPI.login, CollectorAPI.getCurrentCollector,
    LocalStorage.getCurrentCollector.
  destruct (Storage.current_collector st) as [c|] eqn:E; simpl.
  - case_bool_decide as Hc; simpl; auto.
  - auto.
Qed.

(* ===================================================================== *)
(** * The scan history: more of its operations *)
(* ===================================================================== *)

(** What [markAsSynced] leaves in the history: the first entry with the
    identifier is replaced by its synced copy. *)
Lemma markAsSynced_history (scanId : jsstring) (st : Storage.t) :
  ScanHistoryManager.getHistory (ScanHistoryManager.markAsSynced scanId st)
  = match list_find (fun s => ScanHistory.id s = scanId)
            (ScanHistoryManager.getHistory st) with
    | Some (i, scan) =>
        <[i := ScanHistory.set_synced scan true]> (ScanHistoryManager.getHistory st)
    | None => ScanHistoryManager.getHistory st
    end.
Proof.
  unfold ScanHistoryManager.markAsSynced.
  now destruct (list_find _ _) as [[i scan]|].
Qed.

Lemma markAsSynced_split (scanId : jsstring) (st : Storage.t) :
  (ScanHistoryManager.markAsSynced scanId st = st
   /\ Forall (fun s => ScanHistory.id s <> scanId) (ScanHistoryManager.getHistory st))
  \/ exists l1 x l2,
       ScanHistoryManager.getHistory st = l1 ++ x :: l2
       /\ ScanHistory.id x = scanId
       /\ Forall (fun s => ScanHistory.id s <> scanId) l1
       /\ ScanHistoryManager.getHistory (ScanHistoryManager.markAsSynced scanId st)
          = l1 ++ ScanHistory.set_synced x true :: l2.
Proof.
  rewrite markAsSynced_history. unfold ScanHistoryManager.markAsSynced.
  set (history := ScanHistoryManager.getHistory st).
  destruct (list_find _ history) as [[i x]|] eqn:Hfind.
  - right. apply list_find_Some in Hfind as (Hi & Hx & Hbefore).
    exists (take i history), x, (drop (S i) history).
    repeat split.
    + symmetry; now apply take_drop_middle.
    + exact Hx.
    + apply Forall_forall. intros s Hs.
      apply list_elem_of_lookup in Hs as [j Hj].
      pose proof (lookup_lt_Some _ _ _ Hj) as Hlt.
      rewrite lookup_take_lt in Hj by (rewrite length_take in Hlt; lia).
      apply (Hbefore j s Hj). rewrite length_take in Hlt; lia.
    + apply insert_take_drop. now apply lookup_lt_Some in Hi.
  - left. split; [reflexivity|]. now apply list_find_None in Hfind.
Qed.

(** X2.  [markAsSynced] with an identifier that no entry carries changes
    nothing in the store. *)
Theorem markAsSynced_unknown_id (scanId : jsstring) (st : Storage.t) :
  (forall s, In s (ScanHistoryManager.getHistory st) -> ScanHistory.id s <> scanId) ->
  ScanHistoryManager.markAsSynced scanId st = st.
Proof.
  intros H. unfold ScanHistoryManager.markAsSynced.
  destruct (list_find _ _) as [[i x]|] eqn:Hfind; [|reflexivity].
  apply list_find_Some in Hfind as (Hi & Hx & _).
  destruct (H x); [|exact Hx].
  apply list_elem_of_In, list_elem_of_lookup; eauto.
Qed.

Lemma markAsSynced_unknown_id_witness :
  (forall s, In s (ScanHistoryManager.getHistory store_after_second_scan) ->
             ScanHistory.id s <> js "scan_0_none")
  /\ ScanHistoryManager.markAsSynced (js "scan_0_none") store_after_second_scan
     = store_after_second_scan.
Proof.
  assert (H : forall s, In s (ScanHistoryManager.getHistory store_after_second_scan) ->
                        ScanHistory.id s <> js "scan_0_none").
  { intros s Hs. vm_compute in Hs.
    destruct Hs as [<-|[<-|[]]]; vm_compute; discriminate. }
  split; [exact H|].
  exact (markAsSynced_unknown_id _ _ H).
Defined.

Lemma set_synced_fields (x : ScanHistory.t) (b : bool) :
  ScanHistory.id (ScanHistory.set_synced x b) = ScanHistory.id x
  /\ ScanHistory.userId (ScanHistory.set_synced x b) = ScanHistory.userId x
  /\ ScanHistory.timestamp (ScanHistory.set_synced x b) = ScanHistory.timestamp x
  /\ ScanHistory.location (ScanHistory.set_synced x b) = ScanHistory.location x
  /\ ScanHistory.synced (ScanHistory.set_synced x b) = b.
Proof. repeat split. Qed.

(** X3.  [markAsSynced] changes the [synced] flag of one entry at most:
    the identifiers, user identifiers, timestamps and locations of the
    history stay as they were, entry by entry; no entry becomes unsynced,
    and the unsynced scans lose one entry at most. *)
Theorem markAsSynced_only_flips (scanId : jsstring) (st : Storage.t) :
  let st' := ScanHistoryManager.markAsSynced scanId st in
  map ScanHistory.id (ScanHistoryManager.getHistory st')
  = map ScanHistory.id (ScanHistoryManager.getHistory st)
  /\ map ScanHistory.userId (ScanHistoryManager.getHistory st')
     = map ScanHistory.userId (ScanHistoryManager.getHistory st)
  /\ map ScanHistory.timestamp (ScanHistoryManager.getHistory st')
     = map ScanHistory.timestamp (ScanHistoryManager.getHistory st)
  /\ map ScanHistory.location (ScanHistoryManager.getHistory st')
     = map ScanHistory.location (ScanHistoryManager.getHistory st)
  /\ Forall2 (fun before after => before = true -> after = true)
       (map ScanHistory.synced (ScanHistoryManager.getHistory st))
       (map ScanHistory.synced (ScanHistoryManager.getHistory st'))
  /\ sublist (ScanHistoryManager.getUnsyncedScans st')
       (ScanHistoryManager.getUnsyncedScans st)
  /\ (length (ScanHistoryManager.getUnsyncedScans st)
      <= S (length (ScanHistoryManager.getUnsyncedScans st')))%nat.
Proof.
  intros st'; subst st'.
  destruct (markAsSynced_split scanId st)
    as [[-> _]|(l1 & x & l2 & Hh & _ & _ & Hh')].
  - repeat split; auto.
    apply Forall2_same_length_lookup_2; [reflexivity|].
    intros i b b' H1 H2; congruence.
  - unfold ScanHistoryManager.getUnsyncedScans. rewrite Hh', Hh.
    rewrite !map_app; simpl.
    split; [reflexivity|]. split; [reflexivity|].
    split; [reflexivity|]. split; [reflexivity|].
    split; [|split].
    + apply Forall2_app; [|constructor; [auto|]];
        apply Forall2_same_length_lookup_2; try reflexivity;
        intros i b b' H1 H2; congruence.
    + rewrite !filter_app. apply sublist_app; [reflexivity|].
      rewrite (filter_cons_False _ (ScanHistory.set_synced x true))
        by (simpl; discriminate).
      rewrite filter_cons. case_decide; [constructor|]; reflexivity.
    + rewrite !filter_app, !length_app.
      rewrite (filter_cons_False _ (ScanHistory.set_synced x true))
        by (simpl; discriminate).
      rewrite filter_cons. case_decide; simpl; lia.
Qed.

(** X4.  Marking twice is marking once. *)
Theorem markAsSynced_idempotent (scanId : jsstring) (st : Storage.t) :
  ScanHistoryManager.markAsSynced scanId
    (ScanHistoryManager.markAsSynced scanId st)
  = ScanHistoryManager.markAsSynced scanId st.
Proof.
  destruct (markAsSynced_split scanId st)
    as [[E _]|(l1 & x & l2 & Hh & Hx & Hl1 & Hh')].
  - now rewrite !E.
  - assert (Hst' : Storage.scan_history (ScanHistoryManager.markAsSynced scanId st)
                   = Some (ScanHistoryManager.getHistory
                             (ScanHistoryManager.markAsSynced scanId st))).
    { unfold ScanHistoryManager.markAsSynced.
      destruct (list_find _ (ScanHistoryManager.getHistory st))
        as [[i y]|] eqn:F; [reflexivity|].
      apply list_find_None in F. rewrite Hh in F.
      apply Forall_app in F as [_ F]. inversion F; contradiction. }
    remember (ScanHistoryManager.markAsSynced scanId st) as st' eqn:Est'.
    assert (Hfind : list_find (fun s => ScanHistory.id s = scanId)
                      (ScanHistoryManager.getHistory st')
                    = Some (length l1, ScanHistory.set_synced x true)).
    { rewrite Hh'. apply list_find_Some. split; [|split].
      - now rewrite list_lookup_middle.
      - exact Hx.
      - intros j y Hj Hlt. rewrite lookup_app_l in Hj by exact Hlt.
        rewrite Forall_forall in Hl1. apply Hl1.
        apply list_elem_of_lookup; eauto. }
    unfold ScanHistoryManager.markAsSynced. rewrite Hfind.
    rewrite list_insert_id
      by (rewrite Hh'; now rewrite list_lookup_middle).
    unfold ScanHistoryManager.saveHistory, Storage.set_scan_history.
    rewrite <- Hst'. now destruct st'.
Qed.

(** X5.  [clearSyncedScans] keeps the unsynced scans, in their order, and
    nothing else: the unsynced scans are the same before and after, every
    entry left is unsynced, and clearing twice is clearing once. *)
Theorem clearSyncedScans_keeps_unsynced (st : Storage.t) :
  let st' := ScanHistoryManager.clearSyncedScans st in
  ScanHistoryManager.getHistory st' = ScanHistoryManager.getUnsyncedScans st
  /\ ScanHistoryManager.getUnsyncedScans st' = ScanHistoryManager.getUnsyncedScans st
  /\ Forall (fun s => ScanHistory.synced s = false) (ScanHistoryManager.getHistory st')
  /\ sublist (ScanHistoryManager.getHistory st') (ScanHistoryManager.getHistory st)
  /\ ScanHistoryManager.clearSyncedScans st' = st'.
Proof.
  intros st'; subst st'.
  assert (Hff : forall l : list ScanHistory.t,
             filter (fun s => ScanHistory.synced s = false)
               (filter (fun s => ScanHistory.synced s = false) l)
             = filter (fun s => ScanHistory.synced s = false) l).
  { intros l. rewrite list_filter_filter. apply list_filter_iff. tauto. }
  split; [reflexivity|]. split; [|split; [|split]].
  - unfold ScanHistoryManager.getUnsyncedScans.
    rewrite clearSyncedScans_history. apply Hff.
  - rewrite clearSyncedScans_history. apply Forall_forall.
    intros s Hs. now apply list_elem_of_filter in Hs as [Hs _].
  - rewrite clearSyncedScans_history. apply sublist_filter.
  - unfold ScanHistoryManager.clearSyncedScans at 1.
    rewrite clearSyncedScans_history.
    unfold ScanHistoryManager.getUnsyncedScans. rewrite Hff.
    reflexivity.
Qed.

Lemma addScan_history (env : Env.t) (userId : jsstring)
    (location : option (number * number)) (st : Storage.t) :
  ScanHistoryManager.getHistory (ScanHistoryManager.addScan env userId location st).2
  = ScanHistoryManager.getHistory st
    ++ [ScanHistory.JSON_roundtrip
          (ScanHistoryManager.addScan env userId location st).1].
Proof. reflexivity. Qed.

(** X6.  When every entry of the history has an identifier of its own,
    that is still so after [markAsSynced], after [clearSyncedScans], and
    after [addScan] whenever the identifier generated for the new scan is
    not in the history yet. *)
Theorem history_ids_stay_distinct (st : Storage.t) :
  NoDup (map ScanHistory.id (ScanHistoryManager.getHistory st)) ->
  (forall scanId,
     NoDup (map ScanHistory.id
              (ScanHistoryManager.getHistory
                 (ScanHistoryManager.markAsSynced scanId st))))
  /\ NoDup (map ScanHistory.id
              (ScanHistoryManager.getHistory
                 (ScanHistoryManager.clearSyncedScans st)))
  /\ (forall env userId location,
        ~ In (generate_id "scan" env)
             (map ScanHistory.id (ScanHistoryManager.getHistory st)) ->
        NoDup (map ScanHistory.id
                 (ScanHistoryManager.getHistory
                    (ScanHistoryManager.addScan env userId location st).2))).
Proof.
  intros Hnd. split; [|split].
  - intros scanId.
    destruct (markAsSynced_split scanId st)
      as [[-> _]|(l1 & x & l2 & Hh & _ & _ & Hh')]; [exact Hnd|].
    rewrite Hh'. rewrite Hh in Hnd. now rewrite map_app in *.
  - rewrite clearSyncedScans_history.
    eapply sublist_NoDup; [exact Hnd|].
    apply (fmap_sublist ScanHistory.id), sublist_filter.
  - intros env userId location Hfresh.
    rewrite addScan_history, map_app. simpl.
    apply NoDup_app. split; [exact Hnd|]. split.
    + intros i Hi Hi'. apply list_elem_of_singleton in Hi'. subst i.
      apply Hfresh. now apply list_elem_of_In.
    + apply NoDup_singleton.
Qed.

Lemma history_ids_stay_distinct_witness :
  NoDup (map ScanHistory.id (ScanHistoryManager.getHistory store_with_two_scans))
  /\ NoDup (map ScanHistory.id
              (ScanHistoryManager.getHistory
                 (ScanHistoryManager.markAsSynced (js "scan_1_a")
                    store_with_two_scans)))
  /\ NoDup (map ScanHistory.id
              (ScanHistoryManager.getHistory
                 (ScanHistoryManager.clearSyncedScans
                    (ScanHistoryManager.markAsSynced (js "scan_1_a")
                       store_with_two_scans))))
  /\ ~ In (generate_id "scan" sample_env)
          (map ScanHistory.id (ScanHistoryManager.getHistory store_with_two_scans))
  /\ NoDup (map ScanHistory.id
              (ScanHistoryManager.getHistory
                 (ScanHistoryManager.addScan sample_env (js "u3")
                    (Some (Num.of_Z 12, Num.of_Z 77)) store_with_two_scans).2)).
Proof.
  assert (H : NoDup (map ScanHistory.id
                       (ScanHistoryManager.getHistory store_with_two_scans))).
  { vm_compute. apply NoDup_cons_2; [|apply NoDup_singleton].
    intros Hin. apply list_elem_of_singleton in Hin. discriminate Hin. }
  assert (Hfresh : ~ In (generate_id "scan" sample_env)
                     (map ScanHistory.id
                        (ScanHistoryManager.getHistory store_with_two_scans))).
  { vm_compute. intros [Hin|[Hin|[]]]; discriminate Hin. }
  pose proof (history_ids_stay_distinct store_with_two_scans H)
    as (Hmark & _ & Hadd).
  pose proof (history_ids_stay_distinct _ (Hmark (js "scan_1_a")))
    as (_ & Hclear & _).
  split; [exact H|]. split; [exact (Hmark (js "scan_1_a"))|].
  split; [exact Hclear|]. split; [exact Hfresh|].
  exact (Hadd sample_env (js "u3") (Some (Num.of_Z 12, Num.of_Z 77)) Hfresh).
Defined.

(** X7.  [addScan] puts the new scan, as JSON text keeps it, at the end of
    the unsynced scans.  When the identifier generated for it is not yet
    in the history, marking that identifier as synced leaves the unsynced
    scans as they were before the scan was added: the history has grown by
    the synced copy of the saved scan alone, and [clearSyncedScans] takes
    that copy out again. *)
Theorem addScan_then_markAsSynced (env : Env.t) (userId : jsstring)
    (location : option (number * number)) (st : Storage.t) :
  (forall s, In s (ScanHistoryManager.getHistory st) ->
             ScanHistory.id s <> generate_id "scan" env) ->
  let scan := (ScanHistoryManager.addScan env userId location st).1 in
  let saved := ScanHistory.JSON_roundtrip scan in
  let st1 := (ScanHistoryManager.addScan env userId location st).2 in
  let st2 := ScanHistoryManager.markAsSynced (ScanHistory.id scan) st1 in
  ScanHistoryManager.getUnsyncedScans st1
  = ScanHistoryManager.getUnsyncedScans st ++ [saved]
  /\ ScanHistoryManager.getHistory st2
     = ScanHistoryManager.getHistory st ++ [ScanHistory.set_synced saved true]
  /\ ScanHistoryManager.getUnsyncedScans st2 = ScanHistoryManager.getUnsyncedScans st
  /\ ScanHistoryManager.getHistory (ScanHistoryManager.clearSyncedScans st2)
     = ScanHistoryManager.getUnsyncedScans st
  /\ ScanHistory.id saved = generate_id "scan" env
  /\ ScanHistory.userId saved = userId
  /\ ScanHistory.location saved
     = match location with
       | Some (lat, lng) => Some (JSON_number lat, JSON_number lng)
       | None => None
       end.
Proof.
  intros Hfresh scan saved st1 st2.
  assert (H1 : ScanHistoryManager.getUnsyncedScans st1
               = ScanHistoryManager.getUnsyncedScans st ++ [saved]).
  { unfold ScanHistoryManager.getUnsyncedScans. subst st1.
    rewrite addScan_history, filter_app. reflexivity. }
  assert (H2 : ScanHistoryManager.getHistory st2
               = ScanHistoryManager.getHistory st
                 ++ [ScanHistory.set_synced saved true]).
  { subst st2. rewrite markAsSynced_history.
    assert (Hfind : list_find (fun s => ScanHistory.id s = ScanHistory.id scan)
                      (ScanHistoryManager.getHistory st1)
                    = Some (length (ScanHistoryManager.getHistory st), saved)).
    { subst st1. rewrite addScan_history. apply list_find_Some.
      split; [|split].
      - now rewrite list_lookup_middle.
      - reflexivity.
      - intros j y Hj Hlt. rewrite lookup_app_l in Hj by exact Hlt.
        apply Hfresh, list_elem_of_In, list_elem_of_lookup. eauto. }
    rewrite Hfind. subst st1. rewrite addScan_history.
    rewrite insert_app_r_alt by lia. now rewrite Nat.sub_diag. }
  assert (H3 : ScanHistoryManager.getUnsyncedScans st2
               = ScanHistoryManager.getUnsyncedScans st).
  { unfold ScanHistoryManager.getUnsyncedScans. rewrite H2, filter_app.
    rewrite (filter_cons_False _ (ScanHistory.set_synced saved true))
      by (simpl; discriminate).
    rewrite filter_nil. apply app_nil_r. }
  split; [exact H1|]. split; [exact H2|]. split; [exact H3|].
  split; [rewrite clearSyncedScans_history; exact H3|].
  split; [reflexivity|]. split; [reflexivity|].
  now destruct location as [[lat lng]|].
Qed.

Lemma addScan_then_markAsSynced_witness :
  (forall s, In s (ScanHistoryManager.getHistory store_with_two_scans) ->
             ScanHistory.id s <> generate_id "scan" sample_env)
  /\ ScanHistoryManager.getUnsyncedScans
       (ScanHistoryManager.markAsSynced
          (ScanHistory.id
             (ScanHistoryManager.addScan sample_env (js "u3")
                (Some (Num.of_Z 12, S754_infinity false)) store_with_two_scans).1)
          (ScanHistoryManager.addScan sample_env (js "u3")
             (Some (Num.of_Z 12, S754_infinity false)) store_with_two_scans).2)
     = [scan_a; scan_b]
  /\ map ScanHistory.location
       (ScanHistoryManager.getUnsyncedScans
          (ScanHistoryManager.addScan sample_env (js "u3")
             (Some (Num.of_Z 12, S754_infinity false)) store_with_two_scans).2)
     = [None; None; Some (Some (Num.of_Z 12), None)].
Proof.
  assert (H : forall s, In s (ScanHistoryManager.getHistory store_with_two_scans) ->
                        ScanHistory.id s <> generate_id "scan" sample_env).
  { intros s Hs. vm_compute in Hs.
    destruct Hs as [<-|[<-|[]]]; vm_compute; discriminate. }
  pose proof (addScan_then_markAsSynced sample_env (js "u3")
                (Some (Num.of_Z 12, S754_infinity false)) store_with_two_scans H)
    as (H1 & _ & H3 & _).
  split; [exact H|]. split; [exact H3|].
  rewrite H1. reflexivity.
Defined.

(** X8.  The scan history has a key of its own: [addScan],
    [markAsSynced] and [clearSyncedScans] leave the collection logs, the
    dumping reports and the current collector as they were, and so what
    the API lists and whom [App] finds logged in. *)
Theorem scan_history_frame (env : Env.t) (userId scanId : jsstring)
    (location : option (number * number)) (st : Storage.t) :
  Forall
    (fun st' =>
       Storage.collection_logs st' = Storage.collection_logs st
       /\ Storage.dumping_reports st' = Storage.dumping_reports st
       /\ Storage.current_collector st' = Storage.current_collector st
       /\ (forall collectorId,
             CollectorAPI.getCollectionLogs collectorId st'
             = CollectorAPI.getCollectionLogs collectorId st)
       /\ (forall collectorId,
             CollectorAPI.getDumpingReports collectorId st'
             = CollectorAPI.getDumpingReports collectorId st)
       /\ App_restore st' = App_restore st)
    [(ScanHistoryManager.addScan env userId location st).2;
     ScanHistoryManager.markAsSynced scanId st;
     ScanHistoryManager.clearSyncedScans st].
Proof.
  repeat apply Forall_cons_2; [| | |apply Forall_nil_2].
  - destruct st; now repeat split.
  - unfold ScanHistoryManager.markAsSynced.
    destruct (list_find _ _) as [[i scan]|]; destruct st; now repeat split.
  - destruct st; now repeat split.
Qed.

(* ===================================================================== *)
(** * The event store: listings *)
(* ===================================================================== *)

(** X9.  What [getCollectionLogs] and [getDumpingReports] list: the stored
    records in their stored order, all of them when the collector is left
    out or empty, otherwise those of the collector and no others. *)
Theorem listings_select_by_collector (collectorId : jsstring) (st : Storage.t) :
  sublist (CollectorAPI.getCollectionLogs (Some collectorId) st)
    (LocalStorage.getCollectionLogs st)
  /\ (forall log,
        In log (CollectorAPI.getCollectionLogs (Some collectorId) st)
        <-> In log (LocalStorage.getCollectionLogs st)
            /\ (collectorId = [] \/ CollectionLog.collector_id log = collectorId))
  /\ sublist (CollectorAPI.getDumpingReports (Some collectorId) st)
       (LocalStorage.getIllegalDumpingReports st)
  /\ (forall report,
        In report (CollectorAPI.getDumpingReports (Some collectorId) st)
        <-> In report (LocalStorage.getIllegalDumpingReports st)
            /\ (collectorId = []
                \/ IllegalDumpingReport.collector_id report = collectorId)).
Proof.
  unfold CollectorAPI.getCollectionLogs, CollectorAPI.getDumpingReports.
  destruct collectorId as [|c cs]; simpl.
  - split; [reflexivity|]. split; [tauto|]. split; [reflexivity|tauto].
  - split; [apply sublist_filter|]. split; [|split; [apply sublist_filter|]].
    + intros log. rewrite <- !list_elem_of_In, list_elem_of_filter.
      split; [tauto|]. intros [? [?|?]]; [discriminate|tauto].
    + intros report. rewrite <- !list_elem_of_In, list_elem_of_filter.
      split; [tauto|]. intros [? [?|?]]; [discriminate|tauto].
Qed.

Lemma getCollectionLogs_app (collectorId : option jsstring)
    (env : Env.t) (data : CollectionLog.without_id) (st : Storage.t) :
  CollectorAPI.getCollectionLogs collectorId (CollectorAPI.logCollection env data st).2
  = CollectorAPI.getCollectionLogs collectorId st
    ++ match collectorId with
       | Some id =>
           if ToBoolean (JString id) then
             filter (fun log => CollectionLog.collector_id log = id)
               [CollectionLog.JSON_roundtrip
                  (CollectorAPI.logCollection env data st).1]
           else [CollectionLog.JSON_roundtrip
                   (CollectorAPI.logCollection env data st).1]
       | None => [CollectionLog.JSON_roundtrip
                    (CollectorAPI.logCollection env data st).1]
       end.
Proof.
  unfold CollectorAPI.getCollectionLogs, CollectorAPI.logCollection.
  rewrite addCollectionLog_logs.
  destruct collectorId as [id|]; [|reflexivity].
  destruct (ToBoolean (JString id)); [|reflexivity].
  apply filter_app.
Qed.

(** X10.  [logCollection] puts the new record, as JSON text keeps it, at
    the end of the listing of its own collector and of the full listing:
    that is the record returned when its coordinates are numbers that JSON
    text carries, and otherwise the record returned with [null] for a NaN
    or infinite coordinate and [0] for a negative zero.  The dumping
    reports, the scan history and the current collector are as before. *)
Theorem logCollection_own_listing (env : Env.t)
    (data : CollectionLog.without_id) (st : Storage.t) :
  let newLog := (CollectorAPI.logCollection env data st).1 in
  let st' := (CollectorAPI.logCollection env data st).2 in
  CollectorAPI.getCollectionLogs (Some (CollectionLog.collector_id' data)) st'
  = CollectorAPI.getCollectionLogs (Some (CollectionLog.collector_id' data)) st
    ++ [CollectionLog.JSON_roundtrip newLog]
  /\ CollectorAPI.getCollectionLogs None st'
     = CollectorAPI.getCollectionLogs None st ++ [CollectionLog.JSON_roundtrip newLog]
  /\ (CollectionLog.JSON_roundtrip newLog = newLog
      <-> JSON_number (CollectionLog.latitude' data) = Some (CollectionLog.latitude' data)
          /\ JSON_number (CollectionLog.longitude' data)
             = Some (CollectionLog.longitude' data))
  /\ (forall collectorId,
        CollectorAPI.getDumpingReports collectorId st'
        = CollectorAPI.getDumpingReports collectorId st)
  /\ ScanHistoryManager.getHistory st' = ScanHistoryManager.getHistory st
  /\ CollectorAPI.getCurrentCollector st' = CollectorAPI.getCurrentCollector st.
Proof.
  intros newLog st'. subst newLog st'.
  rewrite !getCollectionLogs_app.
  split.
  { destruct (ToBoolean (JString (CollectionLog.collector_id' data)));
      [|reflexivity].
    now rewrite filter_cons_True. }
  split; [reflexivity|].
  split; [|repeat split].
  split.
  - intros [= Hlat Hlng]. now split.
  - intros [Hlat Hlng]. now apply CollectionLog_JSON_roundtrip_kept.
Qed.

(** X11.  A collection logged for one collector does not show in the
    listing of another: for a non-empty [collectorId] other than the
    record's, the listing is the same before and after. *)
Theorem logCollection_other_listing (env : Env.t)
    (data : CollectionLog.without_id) (collectorId : jsstring) (st : Storage.t) :
  collectorId <> [] ->
  CollectionLog.collector_id' data <> collectorId ->
  CollectorAPI.getCollectionLogs (Some collectorId)
    (CollectorAPI.logCollection env data st).2
  = CollectorAPI.getCollectionLogs (Some collectorId) st.
Proof.
  intros Hne Hother. rewrite getCollectionLogs_app.
  destruct collectorId as [|c cs]; [contradiction|]. simpl.
  rewrite filter_cons_False by exact Hother.
  apply app_nil_r.
Qed.

Lemma logCollection_other_listing_witness :
  js "C2" <> []
  /\ CollectionLog.collector_id'
       (CollectionLog.mk_without_id (js "C1") (js "u1") Wet
          (js "2024-01-01T00:00:00.000Z") Num.zero Num.zero None) <> js "C2"
  /\ CollectorAPI.getCollectionLogs (Some (js "C2"))
       (CollectorAPI.logCollection sample_env
          (CollectionLog.mk_without_id (js "C1") (js "u1") Wet
             (js "2024-01-01T00:00:00.000Z") Num.zero Num.zero None)
          Storage.empty).2
     = CollectorAPI.getCollectionLogs (Some (js "C2")) Storage.empty.
Proof.
  assert (H1 : js "C2" <> []) by (vm_compute; discriminate).
  assert (H2 : CollectionLog.collector_id'
                 (CollectionLog.mk_without_id (js "C1") (js "u1") Wet
                    (js "2024-01-01T00:00:00.000Z") Num.zero Num.zero None)
               <> js "C2") by (vm_compute; discriminate).
  split; [exact H1|]. split; [exact H2|].
  exact (logCollection_other_listing sample_env _ (js "C2") Storage.empty H1 H2).
Defined.

Lemma addDumpingReport_reports (env : Env.t)
    (report : IllegalDumpingReport.without_id) (st : Storage.t) :
  LocalStorage.getIllegalDumpingReports (LocalStorage.addDumpingReport env report st).2
  = LocalStorage.getIllegalDumpingReports st
    ++ [IllegalDumpingReport.JSON_roundtrip
          (LocalStorage.addDumpingReport env report st).1].
Proof. reflexivity. Qed.

Lemma getDumpingReports_app (collectorId : option jsstring)
    (env : Env.t) (data : IllegalDumpingReport.without_id) (st : Storage.t) :
  CollectorAPI.getDumpingReports collectorId
    (CollectorAPI.reportIllegalDumping env data st).2
  = CollectorAPI.getDumpingReports collectorId st
    ++ match collectorId with
       | Some id =>
           if ToBoolean (JString id) then
             filter (fun report => IllegalDumpingReport.collector_id report = id)
               [IllegalDumpingReport.JSON_roundtrip
                  (CollectorAPI.reportIllegalDumping env data st).1]
           else [IllegalDumpingReport.JSON_roundtrip
                   (CollectorAPI.reportIllegalDumping env data st).1]
       | None => [IllegalDumpingReport.JSON_roundtrip
                    (CollectorAPI.reportIllegalDumping env data st).1]
       end.
Proof.
  unfold CollectorAPI.getDumpingReports, CollectorAPI.reportIllegalDumping.
  rewrite addDumpingReport_reports.
  destruct collectorId as [id|]; [|reflexivity].
  destruct (ToBoolean (JString id)); [|reflexivity].
  apply filter_app.
Qed.

Lemma reportIllegalDumping_own (env : Env.t)
    (data : IllegalDumpingReport.without_id) (st : Storage.t) :
  CollectorAPI.getDumpingReports (Some (IllegalDumpingReport.collector_id' data))
    (CollectorAPI.reportIllegalDumping env data st).2
  = CollectorAPI.getDumpingReports (Some (IllegalDumpingReport.collector_id' data)) st
    ++ [IllegalDumpingReport.JSON_roundtrip
          (CollectorAPI.reportIllegalDumping env data st).1].
Proof.
  rewrite getDumpingReports_app.
  destruct (ToBoolean (JString (IllegalDumpingReport.collector_id' data)));
    [|reflexivity].
  now rewrite filter_cons_True.
Qed.

Lemma IllegalDumpingReport_JSON_roundtrip_kept
    (data : IllegalDumpingReport.without_id) (new_id : jsstring) :
  JSON_number (IllegalDumpingReport.latitude' data)
  = Some (IllegalDumpingReport.latitude' data) ->
  JSON_number (IllegalDumpingReport.longitude' data)
  = Some (IllegalDumpingReport.longitude' data) ->
  IllegalDumpingReport.JSON_roundtrip (IllegalDumpingReport.with_id data new_id)
  = IllegalDumpingReport.with_id data new_id.
Proof.
  intros Hlat Hlng.
  unfold IllegalDumpingReport.JSON_roundtrip, IllegalDumpingReport.with_id.
  simpl. now rewrite Hlat, Hlng.
Qed.

(** X12.  [reportIllegalDumping] returns the data under an identifier made
    from the clock and the random source, and puts that record, as JSON
    text keeps it, at the end of the listing of its collector: with every
    field of the record returned, but a coordinate that is NaN or infinite
    read back as [null] and a negative zero as [0], so that the record
    listed is the record returned exactly when both coordinates are
    numbers that JSON text carries.  The collection logs, the scan history
    and the current collector are as before. *)
Theorem reportIllegalDumping_then_getDumpingReports (env : Env.t)
    (data : IllegalDumpingReport.without_id) (st : Storage.t) :
  let newReport := (CollectorAPI.reportIllegalDumping env data st).1 in
  let st' := (CollectorAPI.reportIllegalDumping env data st).2 in
  let stored := IllegalDumpingReport.JSON_roundtrip newReport in
  newReport = IllegalDumpingReport.with_id data (generate_id "report" env)
  /\ IllegalDumpingReport.id newReport = Some (generate_id "report" env)
  /\ IllegalDumpingReport.status newReport = IllegalDumpingReport.status' data
  /\ CollectorAPI.getDumpingReports
       (Some (IllegalDumpingReport.collector_id' data)) st'
     = CollectorAPI.getDumpingReports
         (Some (IllegalDumpingReport.collector_id' data)) st ++ [stored]
  /\ CollectorAPI.getDumpingReports None st'
     = CollectorAPI.getDumpingReports None st ++ [stored]
  /\ (IllegalDumpingReport.id stored = IllegalDumpingReport.id newReport
      /\ IllegalDumpingReport.collector_id stored
         = IllegalDumpingReport.collector_id' data
      /\ IllegalDumpingReport.photo_url stored = IllegalDumpingReport.photo_url' data
      /\ IllegalDumpingReport.photo_base64 stored
         = IllegalDumpingReport.photo_base64' data
      /\ IllegalDumpingReport.description stored
         = IllegalDumpingReport.description' data
      /\ IllegalDumpingReport.timestamp stored = IllegalDumpingReport.timestamp' data
      /\ IllegalDumpingReport.status stored = IllegalDumpingReport.status' data
      /\ IllegalDumpingReport.latitude stored
         = JSON_number (IllegalDumpingReport.latitude' data)
      /\ IllegalDumpingReport.longitude stored
         = JSON_number (IllegalDumpingReport.longitude' data))
  /\ (stored = newReport
      <-> JSON_number (IllegalDumpingReport.latitude' data)
          = Some (IllegalDumpingReport.latitude' data)
          /\ JSON_number (IllegalDumpingReport.longitude' data)
             = Some (IllegalDumpingReport.longitude' data))
  /\ (forall collectorId,
        CollectorAPI.getCollectionLogs collectorId st'
        = CollectorAPI.getCollectionLogs collectorId st)
  /\ ScanHistoryManager.getHistory st' = ScanHistoryManager.getHistory st
  /\ CollectorAPI.getCurrentCollector st' = CollectorAPI.getCurrentCollector st.
Proof.
  intros newReport st' stored. subst stored newReport st'.
  split; [reflexivity|]. split; [reflexivity|]. split; [reflexivity|].
  split; [apply reportIllegalDumping_own|].
  split; [apply (getDumpingReports_app None)|].
  split; [repeat split|].
  split; [|repeat split].
  split.
  - intros [= Hlat Hlng]. now split.
  - intros [Hlat Hlng]. now apply IllegalDumpingReport_JSON_roundtrip_kept.
Qed.

(** X13.  A report filed for one collector does not show in the listing of
    another. *)
Theorem reportIllegalDumping_other_listing (env : Env.t)
    (data : IllegalDumpingReport.without_id) (collectorId : jsstring)
    (st : Storage.t) :
  collectorId <> [] ->
  IllegalDumpingReport.collector_id' data <> collectorId ->
  CollectorAPI.getDumpingReports (Some collectorId)
    (CollectorAPI.reportIllegalDumping env data st).2
  = CollectorAPI.getDumpingReports (Some collectorId) st.
Proof.
  intros Hne Hother. rewrite getDumpingReports_app.
  destruct collectorId as [|c cs]; [contradiction|]. simpl.
  rewrite filter_cons_False by exact Hother.
  apply app_nil_r.
Qed.

Lemma reportIllegalDumping_other_listing_witness :
  js "C2" <> []
  /\ IllegalDumpingReport.collector_id'
       (IllegalDumpingReport.mk_without_id (js "C1") None None None
          (js "2024-01-01T00:00:00.000Z") Num.zero Num.zero Pending) <> js "C2"
  /\ CollectorAPI.getDumpingReports (Some (js "C2"))
       (CollectorAPI.reportIllegalDumping sample_env
          (IllegalDumpingReport.mk_without_id (js "C1") None None None
             (js "2024-01-01T00:00:00.000Z") Num.zero Num.zero Pending)
          Storage.empty).2
     = CollectorAPI.getDumpingReports (Some (js "C2")) Storage.empty.
Proof.
  assert (H1 : js "C2" <> []) by (vm_compute; discriminate).
  assert (H2 : IllegalDumpingReport.collector_id'
                 (IllegalDumpingReport.mk_without_id (js "C1") None None None
                    (js "2024-01-01T00:00:00.000Z") Num.zero Num.zero Pending)
               <> js "C2") by (vm_compute; discriminate).
  split; [exact H1|]. split; [exact H2|].
  exact (reportIllegalDumping_other_listing sample_env _ (js "C2")
           Storage.empty H1 H2).
Defined.

(** ** Sessions *)

Lemma login_fresh (collectorId : jsstring) (st : Storage.t) :
  (forall c, CollectorAPI.getCurrentCollector st = Some c ->
             Collector.id c <> collectorId) ->
  CollectorAPI.login collectorId st
  = (Collector.mk collectorId (js "Collector " ++ collectorId) None None true,
     LocalStorage.setCurrentCollector
       (Collector.mk collectorId (js "Collector " ++ collectorId) None None true) st).
Proof.
  intros H. unfold CollectorAPI.login, CollectorAPI.getCurrentCollector in *.
  destruct (LocalStorage.getCurrentCollector st) as [c|]; [|reflexivity].
  case_bool_decide as E; [|reflexivity].
  now destruct (H c eq_refl).
Qed.

(** X14.  [login] returns a collector with the identifier asked for and
    leaves it as the current collector; it keeps the stored record when
    that has the identifier already, whatever its other fields, and
    otherwise stores an active collector named after the identifier.
    Logging in again changes nothing.  After [logout] the stored record
    is not found again: [login] answers with the new one.  The logs,
    reports and scans are never touched. *)
Theorem login_session (collectorId : jsstring) (st : Storage.t) :
  let collector := (CollectorAPI.login collectorId st).1 in
  let st' := (CollectorAPI.login collectorId st).2 in
  Collector.id collector = collectorId
  /\ CollectorAPI.getCurrentCollector st' = Some collector
  /\ CollectorAPI.login collectorId st' = (collector, st')
  /\ (forall c, CollectorAPI.getCurrentCollector st = Some c ->
                Collector.id c = collectorId -> collector = c /\ st' = st)
  /\ ((forall c, CollectorAPI.getCurrentCollector st = Some c ->
                 Collector.id c <> collectorId) ->
      collector
      = Collector.mk collectorId (js "Collector " ++ collectorId) None None true)
  /\ (CollectorAPI.login collectorId (CollectorAPI.logout st')).1
     = Collector.mk collectorId (js "Collector " ++ collectorId) None None true
  /\ Storage.collection_logs st' = Storage.collection_logs st
  /\ Storage.dumping_reports st' = Storage.dumping_reports st
  /\ Storage.scan_history st' = Storage.scan_history st.
Proof.
  intros collector st'; subst collector st'.
  unfold CollectorAPI.login, CollectorAPI.getCurrentCollector,
    CollectorAPI.logout, LocalStorage.getCurrentCollector.
  destruct st as [logs reports current history]; simpl.
  destruct current as [c|]; simpl.
  - case_bool_decide as E; simpl.
    + rewrite bool_decide_eq_true_2 by exact E.
      split; [exact E|]. split; [reflexivity|]. split; [reflexivity|].
      split; [intros c0 [= <-] _; now split|].
      split; [intros H; now destruct (H c eq_refl)|].
      split; [reflexivity|]. now repeat split.
    + rewrite bool_decide_eq_true_2 by reflexivity.
      split; [reflexivity|]. split; [reflexivity|]. split; [reflexivity|].
      split; [intros c0 [= <-] E'; contradiction|].
      split; [reflexivity|].
      split; [reflexivity|]. now repeat split.
  - rewrite bool_decide_eq_true_2 by reflexivity.
    split; [reflexivity|]. split; [reflexivity|]. split; [reflexivity|].
    split; [discriminate|].
    split; [reflexivity|].
    split; [reflexivity|]. now repeat split.
Qed.

(* ===================================================================== *)
(** * The store and JSON text *)
(* ===================================================================== *)

Lemma CollectionLog_JSON_roundtrip_idempotent (log : CollectionLog.t) :
  CollectionLog.JSON_roundtrip (CollectionLog.JSON_roundtrip log)
  = CollectionLog.JSON_roundtrip log.
Proof.
  unfold CollectionLog.JSON_roundtrip; simpl.
  now rewrite !JSON_nullable_idempotent.
Qed.

Lemma IllegalDumpingReport_JSON_roundtrip_idempotent (report : IllegalDumpingReport.t) :
  IllegalDumpingReport.JSON_roundtrip (IllegalDumpingReport.JSON_roundtrip report)
  = IllegalDumpingReport.JSON_roundtrip report.
Proof.
  unfold IllegalDumpingReport.JSON_roundtrip; simpl.
  now rewrite !JSON_nullable_idempotent.
Qed.

Lemma ScanHistory_JSON_roundtrip_idempotent (scan : ScanHistory.t) :
  ScanHistory.JSON_roundtrip (ScanHistory.JSON_roundtrip scan)
  = ScanHistory.JSON_roundtrip scan.
Proof.
  unfold ScanHistory.JSON_roundtrip; simpl.
  destruct (ScanHistory.location scan) as [[lat lng]|]; [|reflexivity].
  now rewrite !JSON_nullable_idempotent.
Qed.

Lemma ScanHistory_JSON_roundtrip_set_synced (scan : ScanHistory.t) (value : bool) :
  ScanHistory.JSON_roundtrip scan = scan ->
  ScanHistory.JSON_roundtrip (ScanHistory.set_synced scan value)
  = ScanHistory.set_synced scan value.
Proof.
  destruct scan as [i u t l sy].
  unfold ScanHistory.JSON_roundtrip, ScanHistory.set_synced; simpl.
  intros [= E]. now rewrite E.
Qed.

(** Over what was read from the store, the round trip of the whole array
    that [setItem] and [saveHistory] write is the round trip of the
    record pushed onto it. *)
Lemma JSON_roundtrip_pushed {A} (roundtrip : A -> A) (stored : list A) (x : A) :
  Forall (fun y => roundtrip y = y) stored ->
  map roundtrip (stored ++ [x]) = stored ++ [roundtrip x].
Proof.
  intros H. rewrite map_app. f_equal.
  induction H as [|y l Hy Hl IH]; simpl; [reflexivity|].
  now rewrite Hy, IH.
Qed.

(** The empty store is made of JSON text, and every operation on the
    store leaves it so. *)
Lemma from_JSON_text_kept (st : Storage.t) :
  from_JSON_text Storage.empty
  /\ (from_JSON_text st ->
      (forall env data, from_JSON_text (CollectorAPI.logCollection env data st).2)
      /\ (forall env data,
            from_JSON_text (CollectorAPI.reportIllegalDumping env data st).2)
      /\ (forall collectorId, from_JSON_text (CollectorAPI.login collectorId st).2)
      /\ from_JSON_text (CollectorAPI.logout st)
      /\ (forall env userId location,
            from_JSON_text (ScanHistoryManager.addScan env userId location st).2)
      /\ (forall scanId, from_JSON_text (ScanHistoryManager.markAsSynced scanId st))
      /\ from_JSON_text (ScanHistoryManager.clearSyncedScans st)).
Proof.
  split; [repeat split; constructor|].
  intros (Hlogs & Hreports & Hscans).
  split; [|split; [|split; [|split; [|split; [|split]]]]].
  - intros env data. split; [|split; assumption].
    unfold CollectorAPI.logCollection. rewrite addCollectionLog_logs.
    apply Forall_app; split; [exact Hlogs|].
    constructor; [apply CollectionLog_JSON_roundtrip_idempotent|constructor].
  - intros env data. split; [assumption|]. split; [|assumption].
    unfold CollectorAPI.reportIllegalDumping. rewrite addDumpingReport_reports.
    apply Forall_app; split; [exact Hreports|].
    constructor; [apply IllegalDumpingReport_JSON_roundtrip_idempotent|constructor].
  - intros collectorId. unfold CollectorAPI.login.
    destruct (LocalStorage.getCurrentCollector st) as [c|];
      [case_bool_decide|]; repeat split; assumption.
  - repeat split; assumption.
  - intros env userId location. split; [assumption|]. split; [assumption|].
    rewrite addScan_history.
    apply Forall_app; split; [exact Hscans|].
    constructor; [apply ScanHistory_JSON_roundtrip_idempotent|constructor].
  - intros scanId. split; [|split].
    + unfold ScanHistoryManager.markAsSynced.
      now destruct (list_find _ _) as [[i scan]|].
    + unfold ScanHistoryManager.markAsSynced.
      now destruct (list_find _ _) as [[i scan]|].
    + destruct (markAsSynced_split scanId st)
        as [[-> _]|(l1 & x & l2 & Hh & _ & _ & ->)]; [exact Hscans|].
      rewrite Hh in Hscans.
      apply Forall_app in Hscans as [H1 H2]. inversion H2; subst.
      apply Forall_app; split; [exact H1|].
      constructor; [now apply ScanHistory_JSON_roundtrip_set_synced|assumption].
  - split; [assumption|]. split; [assumption|].
    rewrite clearSyncedScans_history.
    apply Forall_forall. intros scan Hin.
    apply list_elem_of_filter in Hin as [_ Hin].
    rewrite Forall_forall in Hscans. now apply Hscans.
Qed.

(* ===================================================================== *)
(** * parseQRCode: which texts reach the structured branch *)
(* ===================================================================== *)

Lemma parse_elements_array (fuel : nat) :
  forall s acc v rest,
    JSON.parse_elements fuel s acc = JSON.Parsed v rest ->
    exists elements, v = JArray elements.
Proof.
  induction fuel as [|fuel IH]; intros s acc v rest H; [discriminate|].
  rewrite parse_elements_S in H.
  destruct (JSON.parse_value fuel s) as [v1 r1| |]; try discriminate.
  destruct (JSON.skip_ws r1) as [|c r']; [discriminate|].
  destruct (c =? JSON.chr ","); [exact (IH _ _ _ _ H)|].
  destruct (c =? JSON.chr "]"); [|discriminate].
  injection H as <- _; eauto.
Qed.

Lemma literal_not_object (word : string) (v : JSValue) (s : jsstring)
    (props : list (jsstring * JSValue)) (rest : jsstring) :
  (forall p, v <> JObject p) ->
  JSON.literal word v s <> JSON.Parsed (JObject props) rest.
Proof.
  unfold JSON.literal; intros Hv.
  destruct (strip_prefix _ _); [|discriminate].
  intros [= E _]. exact (Hv _ E).
Qed.

(** An object is read from a text that opens with a left brace, and from
    no other. *)
Lemma parse_value_object (fuel : nat) (s : jsstring)
    (props : list (jsstring * JSValue)) (rest : jsstring) :
  JSON.parse_value fuel s = JSON.Parsed (JObject props) rest ->
  exists s1, JSON.skip_ws s = JSON.chr "{" :: s1.
Proof.
  destruct fuel as [|fuel]; [discriminate|].
  cbn [JSON.parse_value].
  destruct (JSON.skip_ws s) as [|c s1]; [discriminate|].
  destruct (c =? JSON.chr "{") eqn:Ec.
  { apply N.eqb_eq in Ec as ->; eauto. }
  intros H; exfalso.
  destruct (c =? JSON.chr "[").
  { destruct (JSON.skip_ws s1) as [|c' s2]; [discriminate|].
    destruct (c' =? JSON.chr "]"); [discriminate|].
    apply parse_elements_array in H as [l [=]]. }
  destruct (c =? QUOTE).
  { destruct (JSON.parse_chars s1) as [[str r]|]; discriminate. }
  destruct (c =? JSON.chr "t").
  { revert H; apply literal_not_object; discriminate. }
  destruct (c =? JSON.chr "f").
  { revert H; apply literal_not_object; discriminate. }
  destruct (c =? JSON.chr "n").
  { revert H; apply literal_not_object; discriminate. }
  destruct (JSON.parse_number (c :: s1)) as [[n r]|]; discriminate.
Qed.

Lemma JSON_parse_object_brace (text : jsstring) (props : list (jsstring * JSValue)) :
  JSON.parse text = ret (JObject props) ->
  exists s1, JSON.skip_ws text = JSON.chr "{" :: s1.
Proof.
  unfold JSON.parse.
  destruct (JSON.parse_value _ text) as [v rest| |] eqn:E; try discriminate.
  destruct (JSON.skip_ws rest); [|discriminate].
  intros [= ->]. exact (parse_value_object _ _ _ _ E).
Qed.

(** The structured branch answers for objects alone, and with a truthy
    value. *)
Lemma json_branch_object (qrText : jsstring) (result : QRScanResult.t) :
  json_branch qrText = ret (Some result) ->
  exists props v,
    JSON.parse qrText = ret (JObject props)
    /\ result = valid_result qrText v
    /\ ToBoolean v = true.
Proof.
  unfold json_branch.
  destruct (JSON.parse qrText) as [e|parsed]; simpl; [discriminate|].
  destruct (userId_or_user_id parsed) as [e|u] eqn:Eu; simpl; [discriminate|].
  destruct (ToBoolean u) eqn:Et; simpl; [|discriminate].
  intros [= <-].
  destruct parsed as [| | | | | |props];
    try (unfold userId_or_user_id in Eu; simpl in Eu;
         injection Eu as <-; discriminate);
    try discriminate.
  eauto.
Qed.

Lemma parseQRCode_plain (qrText : jsstring) :
  startsWith qrText SWACHH_USER_ = false ->
  (forall rest, JSON.skip_ws qrText <> JSON.chr "{" :: rest) ->
  parseQRCode qrText = valid_result qrText (JString qrText).
Proof.
  intros Hprefix Hbrace.
  rewrite parseQRCode_after_prefix by now apply prefix_branch_not_prefixed.
  destruct (json_branch qrText) as [e|[result|]] eqn:Hj; simpl; try reflexivity.
  apply json_branch_object in Hj as (props & v & Hp & _).
  apply JSON_parse_object_brace in Hp as [s1 Hs1].
  now destruct (Hbrace s1).
Qed.

(** X15.  A text that does not begin with the prefix is decoded by the
    structured branch only when its first character after white space is
    a left brace.  Every other text, JSON or not (a number, a quoted
    string, an array, [null]), comes back whole as the [userId]. *)
Theorem parseQRCode_not_an_object (qrText : jsstring) :
  startsWith qrText SWACHH_USER_ = false ->
  (forall rest, JSON.skip_ws qrText <> JSON.chr "{" :: rest) ->
  parseQRCode qrText = valid_result qrText (JString qrText).
Proof. exact (parseQRCode_plain qrText). Qed.

Lemma parseQRCode_not_an_object_witness :
  startsWith (jsq "['userId', 42]") SWACHH_USER_ = false
  /\ (forall rest, JSON.skip_ws (jsq "['userId', 42]") <> JSON.chr "{" :: rest)
  /\ parseQRCode (jsq "['userId', 42]")
     = valid_result (jsq "['userId', 42]") (JString (jsq "['userId', 42]")).
Proof.
  assert (H1 : startsWith (jsq "['userId', 42]") SWACHH_USER_ = false)
    by (vm_compute; reflexivity).
  assert (H2 : forall rest,
             JSON.skip_ws (jsq "['userId', 42]") <> JSON.chr "{" :: rest)
    by (intros rest; vm_compute; discriminate).
  split; [exact H1|]. split; [exact H2|].
  exact (parseQRCode_not_an_object _ H1 H2).
Defined.

Lemma is_id_char_plain (c : code_unit) :
  is_id_char c = true -> JSON.is_ws c = false /\ c <> JSON.chr "{".
Proof.
  unfold is_id_char, JSON.is_ws, JSON.chr; simpl N_of_ascii.
  rewrite !orb_true_iff, !andb_true_iff, !N.leb_le, !N.eqb_eq.
  intros H. split; [|lia].
  rewrite !orb_false_iff, !N.eqb_neq. lia.
Qed.

Lemma isValidUserId_chars (userId : jsstring) :
  isValidUserId userId = true ->
  (3 <= length userId)%nat /\ forallb is_id_char userId = true.
Proof.
  unfold isValidUserId. rewrite andb_true_iff, Nat.leb_le.
  destruct userId; [intros [_ [=]]|tauto].
Qed.

Lemma parseQRCode_prefix_alone :
  isValidUserId SWACHH_USER_ = true
  /\ parseQRCode SWACHH_USER_ = valid_result SWACHH_USER_ (JString SWACHH_USER_).
Proof. split; vm_compute; reflexivity. Qed.

(** X16.  An identifier that [isValidUserId] accepts is decoded to itself
    from the code [generateMockQRCode] makes of it.  The bare identifier
    is decoded to itself when it does not begin with the prefix, and when
    it is the prefix and no more, which [isValidUserId] accepts too; when
    it is the prefix and more, it is decoded to what follows the prefix. *)
Theorem isValidUserId_decodes (userId : jsstring) :
  isValidUserId userId = true ->
  parseQRCode (generateMockQRCode userId)
  = valid_result (generateMockQRCode userId) (JString userId)
  /\ (startsWith userId SWACHH_USER_ = false ->
      parseQRCode userId = valid_result userId (JString userId))
  /\ (forall rest, userId = SWACHH_USER_ ++ rest ->
      parseQRCode userId
      = valid_result userId
          (JString match rest with [] => userId | _ :: _ => rest end))
  /\ (QRScanResult.userId (parseQRCode userId) = Some (JString userId)
      <-> startsWith userId SWACHH_USER_ = false \/ userId = SWACHH_USER_).
Proof.
  intros Hvalid. apply isValidUserId_chars in Hvalid as [Hlen Hchars].
  assert (Hbare : startsWith userId SWACHH_USER_ = false ->
                  parseQRCode userId = valid_result userId (JString userId)).
  { intros Hprefix. apply parseQRCode_plain; [exact Hprefix|].
    destruct userId as [|c userId]; [simpl in Hlen; lia|].
    simpl in Hchars. apply andb_true_iff in Hchars as [Hc _].
    apply is_id_char_plain in Hc as [Hws Hbrace].
    intros rest. cbn [JSON.skip_ws]. rewrite Hws.
    intros [= E _]. exact (Hbrace E). }
  assert (Hrest : forall rest, userId = SWACHH_USER_ ++ rest ->
                    parseQRCode userId
                    = valid_result userId
                        (JString match rest with [] => userId | _ :: _ => rest end)).
  { intros [|c rest] ->.
    - rewrite app_nil_r. exact (proj2 parseQRCode_prefix_alone).
    - now apply parseQRCode_strips_prefix. }
  split; [apply parseQRCode_strips_prefix; now destruct userId|].
  split; [exact Hbare|]. split; [exact Hrest|].
  destruct (startsWith userId SWACHH_USER_) eqn:Hprefix.
  - apply startsWith_true in Hprefix as [rest Hu].
    rewrite (Hrest rest Hu). simpl. split.
    + intros [= E]. right. destruct rest as [|c rest].
      * now rewrite app_nil_r in Hu.
      * exfalso. pose proof (f_equal (@length _) Hu) as Hl.
        rewrite <- E, length_app in Hl.
        assert (0 < length SWACHH_USER_)%nat by (vm_compute; lia).
        simpl in Hl. lia.
    + intros [H|H]; [discriminate|].
      assert (rest = []) as ->.
      { pose proof (f_equal (@length _) Hu) as Hl.
        rewrite H, length_app in Hl at 1.
        destruct rest; [reflexivity|simpl in Hl; lia]. }
      reflexivity.
  - rewrite (Hbare eq_refl). simpl. split; auto.
Qed.

Lemma isValidUserId_decodes_witness :
  isValidUserId (js "ward-12_A") = true
  /\ parseQRCode (js "ward-12_A") = valid_result (js "ward-12_A") (JString (js "ward-12_A"))
  /\ isValidUserId (js "SWACHH_USER_") = true
  /\ parseQRCode (js "SWACHH_USER_")
     = valid_result (js "SWACHH_USER_") (JString (js "SWACHH_USER_"))
  /\ isValidUserId (js "SWACHH_USER_42") = true
  /\ parseQRCode (js "SWACHH_USER_42")
     = valid_result (js "SWACHH_USER_42") (JString (js "42")).
Proof.
  assert (H1 : isValidUserId (js "ward-12_A") = true) by (vm_compute; reflexivity).
  assert (H2 : isValidUserId (js "SWACHH_USER_") = true) by (vm_compute; reflexivity).
  assert (H3 : isValidUserId (js "SWACHH_USER_42") = true) by (vm_compute; reflexivity).
  split; [exact H1|]. split.
  { apply (proj1 (proj2 (isValidUserId_decodes _ H1))). vm_compute; reflexivity. }
  split; [exact H2|]. split.
  { exact (proj1 (proj2 (proj2 (isValidUserId_decodes _ H2))) [] eq_refl). }
  split; [exact H3|].
  exact (proj1 (proj2 (proj2 (isValidUserId_decodes _ H3))) (js "42") eq_refl).
Defined.

Lemma prefix_branch_truthy (qrText : jsstring) (result : QRScanResult.t) :
  prefix_branch qrText = Some result ->
  exists v, result = valid_result qrText v /\ ToBoolean v = true.
Proof.
  unfold prefix_branch.
  destruct (startsWith _ _); [|discriminate].
  destruct (ToBoolean _ && _) eqn:E; [|discriminate].
  apply andb_true_iff in E as [E _].
  intros [= <-]; eauto.
Qed.

Lemma parseQRCode_truthy (qrText : jsstring) :
  qrText <> [] ->
  exists v, parseQRCode qrText = valid_result qrText v /\ ToBoolean v = true.
Proof.
  intros Hne. unfold parseQRCode, parseQRCode_body.
  destruct (prefix_branch qrText) as [r|] eqn:Hp.
  - apply prefix_branch_truthy in Hp as (v & -> & Hv); simpl; eauto.
  - destruct (json_branch qrText) as [e|[r|]] eqn:Hj; simpl.
    + exists (JString qrText). now destruct qrText.
    + apply json_branch_object in Hj as (props & v & _ & -> & Hv); eauto.
    + exists (JString qrText). now destruct qrText.
Qed.

(** X17.  For every non-empty text the [userId] of the result is present
    and truthy; for the empty text it is the empty string. *)
Theorem parseQRCode_userId_truthy (qrText : jsstring) :
  qrText <> [] ->
  exists v, QRScanResult.userId (parseQRCode qrText) = Some v
            /\ ToBoolean v = true
            /\ parseQRCode qrText = valid_result qrText v.
Proof.
  intros Hne. destruct (parseQRCode_truthy qrText Hne) as (v & E & Hv).
  exists v. rewrite E. auto.
Qed.

Lemma parseQRCode_userId_truthy_witness :
  jsq "{'user_id':7}" <> []
  /\ exists v, QRScanResult.userId (parseQRCode (jsq "{'user_id':7}")) = Some v
               /\ ToBoolean v = true
               /\ parseQRCode (jsq "{'user_id':7}")
                  = valid_result (jsq "{'user_id':7}") v.
Proof.
  assert (H : jsq "{'user_id':7}" <> []) by (vm_compute; discriminate).
  split; [exact H|].
  exact (parseQRCode_userId_truthy _ H).
Defined.

Lemma prefix_branch_string (qrText : jsstring) (result : QRScanResult.t) :
  prefix_branch qrText = Some result ->
  exists userId, result = valid_result qrText (JString userId).
Proof.
  unfold prefix_branch.
  destruct (startsWith _ _); [|discriminate].
  destruct (ToBoolean _ && _); [|discriminate].
  intros [= <-]; eauto.
Qed.

(** The [userId] is a string, unless the text is the JSON text of an
    object. *)
Lemma parseQRCode_userId_shape (qrText : jsstring) :
  exists v,
    parseQRCode qrText = valid_result qrText v
    /\ ((exists userId, v = JString userId)
        \/ exists props, JSON.parse qrText = ret (JObject props)).
Proof.
  unfold parseQRCode, parseQRCode_body.
  destruct (prefix_branch qrText) as [r|] eqn:Hp.
  - apply prefix_branch_string in Hp as (userId & ->); simpl; eauto.
  - destruct (json_branch qrText) as [e|[r|]] eqn:Hj; simpl; eauto.
    apply json_branch_object in Hj as (props & v & Hparse & -> & _); eauto.
Qed.

Lemma handleScan_unfold (geolocation : option position_answer) (now : Z)
    (isProcessing : bool) (result : option jsstring) :
  handleScan geolocation now isProcessing result
  = match result with
    | Some (c :: text) =>
        if isProcessing then ScanIgnored
        else if ToString_throws (userId_value (parseQRCode (c :: text)))
        then ScanError
        else
          ScanSuccess (userId_value (parseQRCode (c :: text)))
            match geolocation with
            | Some (PositionFix latitude longitude _) => Some (latitude, longitude)
            | _ => None
            end
    | _ => ScanIgnored
    end.
Proof.
  unfold handleScan.
  destruct result as [[|c text]|]; try reflexivity.
  destruct isProcessing; [reflexivity|]. simpl negb. simpl andb.
  destruct (parseQRCode_truthy (c :: text)) as (v & -> & Hv); [discriminate|].
  unfold userId_value, template_literal; simpl. rewrite Hv.
  destruct (ToString_throws v);
    now destruct geolocation as [[lat lng acc|code]|].
Qed.

(** X18.  [handleScan] never ends in the 'Invalid QR Code' toast.  A scan
    is ignored when the text is absent or empty or when another scan is
    being processed.  Every other scan ends in the 'Scan Error' toast when
    the [userId] of the decoder cannot be turned into a string for the
    toast, which happens for the JSON text of an object only; and
    otherwise in [onScanSuccess], with that truthy [userId], and with the
    coordinates exactly when the position was fixed. *)
Theorem handleScan_outcome (geolocation : option position_answer) (now : Z)
    (isProcessing : bool) (result : option jsstring) :
  handleScan geolocation now isProcessing result
  = match result with
    | Some (c :: text) =>
        if isProcessing then ScanIgnored
        else if ToString_throws (userId_value (parseQRCode (c :: text)))
        then ScanError
        else
          ScanSuccess (userId_value (parseQRCode (c :: text)))
            match geolocation with
            | Some (PositionFix latitude longitude _) => Some (latitude, longitude)
            | _ => None
            end
    | _ => ScanIgnored
    end
  /\ (forall description,
        handleScan geolocation now isProcessing result <> ScanInvalid description)
  /\ (forall userId location,
        handleScan geolocation now isProcessing result = ScanSuccess userId location ->
        ToBoolean userId = true /\ ToString_throws userId = false)
  /\ (handleScan geolocation now isProcessing result = ScanError ->
      exists text props,
        result = Some text /\ JSON.parse text = ret (JObject props)).
Proof.
  split; [apply handleScan_unfold|]. rewrite handleScan_unfold.
  split; [|split].
  - intros description.
    destruct result as [[|c text]|]; try discriminate.
    destruct isProcessing; [discriminate|].
    destruct (ToString_throws _); discriminate.
  - intros userId location.
    destruct result as [[|c text]|]; try discriminate.
    destruct isProcessing; [discriminate|].
    destruct (ToString_throws _) eqn:Hthrows; [discriminate|].
    intros [= <- _]. split; [|exact Hthrows].
    destruct (parseQRCode_truthy (c :: text)) as (v & -> & Hv); [discriminate|].
    exact Hv.
  - destruct result as [[|c text]|]; try discriminate.
    destruct isProcessing; [discriminate|].
    destruct (ToString_throws _) eqn:Hthrows; [|discriminate].
    intros _.
    destruct (parseQRCode_userId_shape (c :: text)) as (v & E & [[u ->]|[props Hp]]).
    + rewrite E in Hthrows. discriminate Hthrows.
    + eauto.
Qed.

(** The toast is reached: the [userId] of this text is an object with a
    [toString] of its own that cannot be called. *)
Example handleScan_scan_error :
  handleScan None 0 false (Some (jsq "{'userId':{'toString':0}}")) = ScanError
  /\ handleScan None 0 false (Some (jsq "{'userId':{'name':'u7'}}"))
     = ScanSuccess (JObject [(js "name", JString (js "u7"))]) None.
Proof. split; vm_compute; reflexivity. Qed.

(* ===================================================================== *)
(** * The components *)
(* ===================================================================== *)

Lemma ToBoolean_trim (s : jsstring) :
  ToBoolean (JString (trim s)) = negb (forallb is_white_space s).
Proof.
  destruct (forallb is_white_space s) eqn:E.
  - apply trim_nil in E. now rewrite E.
  - destruct (trim s) eqn:T; [|reflexivity].
    apply trim_nil in T. congruence.
Qed.

(** X19.  [handleLogin] on an identifier of white space alone asks for
    the identifier and leaves the store as it is.  On any other it logs
    in under the trimmed identifier, which neither begins nor ends with
    white space: that collector is the current one, [App] finds it on the
    next mount and shows the index page for it, and after [handleLogout]
    it shows the login page and finds no collector. *)
Theorem handleLogin_outcome (collectorId : jsstring) (st : Storage.t) :
  let st' := (handleLogin collectorId st).2 in
  if forallb is_white_space collectorId then
    handleLogin collectorId st = (LoginBlank, st)
  else
    (exists welcome,
       (handleLogin collectorId st).1 = LoggedIn welcome (trim collectorId))
    /\ (forall c r, trim collectorId = c :: r -> is_white_space c = false)
    /\ (forall c r, trim collectorId = r ++ [c] -> is_white_space c = false)
    /\ App_restore st' = Some (trim collectorId)
    /\ App_page (App_restore st') = IndexPage (trim collectorId)
    /\ App_page (handleLogout st').1 = LoginPage
    /\ App_restore (handleLogout st').2 = None.
Proof.
  intros st'; subst st'. unfold handleLogin.
  rewrite ToBoolean_trim.
  destruct (forallb is_white_space collectorId) eqn:E; [reflexivity|].
  simpl negb. cbv iota.
  destruct (login_result (trim collectorId) st) as [Hid Hcur].
  destruct (CollectorAPI.login (trim collectorId) st) as [collector st1].
  simpl in *.
  split; [rewrite Hid; eauto|].
  split; [exact (proj1 (trim_ends collectorId))|].
  split; [exact (proj2 (trim_ends collectorId))|].
  assert (Hrestore : App_restore st1 = Some (trim collectorId)).
  { unfold App_restore. now rewrite Hcur, Hid. }
  split; [exact Hrestore|]. rewrite Hrestore.
  split; [|split; reflexivity].
  unfold App_page. rewrite ToBoolean_trim, E. reflexivity.
Qed.

(** What is stored of [x || 0]: never NaN, never the negative zero, and
    [null] for an infinite [x] alone. *)
Lemma JSON_number_or_zero (x : option number) :
  (forall v, JSON_number (number_or_zero x) = Some v ->
             Num.is_nan v = false /\ v <> S754_zero true
             /\ Number_isFinite v = true)
  /\ (JSON_number (number_or_zero x) = None
      <-> exists sign, x = Some (S754_infinity sign))
  /\ (x = None -> JSON_number (number_or_zero x) = Some Num.zero).
Proof.
  unfold number_or_zero. split; [|split].
  - destruct x as [[[|]| | |]|]; simpl; intros v [= <-];
      repeat split; discriminate.
  - destruct x as [[[|]|sign| |]|]; simpl; split;
      try discriminate; try (intros [sign' [=]]); eauto.
  - now intros ->.
Qed.

Lemma handleWasteTypeSelect_scanned (env : Env.t) (collectorId : jsstring)
    (wasteType : WasteType) (s : IndexState.t) (st : Storage.t)
    (c : code_unit) (u : jsstring) :
  IndexState.scannedUserId s = Some (c :: u) ->
  handleWasteTypeSelect env collectorId wasteType s st
  = (IndexState.mk (IndexState.activeView s) false None None,
     (CollectorAPI.logCollection env
        (collection_data env collectorId (c :: u) wasteType
           (IndexState.scanLocation s)) st).2).
Proof. unfold handleWasteTypeSelect; now intros ->. Qed.

(** X20.  [handleWasteTypeSelect] without a scanned user does nothing.
    With one it logs one collection, for that user under the collector of
    the page, with the waste type chosen; the coordinates logged are never
    [NaN] and never the negative zero, they are [null] where the scan had
    an infinite coordinate and finite numbers otherwise, and they are
    [(0, 0)] when the scan had no position.  It closes the selector and
    forgets the scan, so that choosing again logs nothing. *)
Theorem handleWasteTypeSelect_outcome (env : Env.t) (collectorId : jsstring)
    (wasteType : WasteType) (s : IndexState.t) (st : Storage.t) :
  let s' := (handleWasteTypeSelect env collectorId wasteType s st).1 in
  let st' := (handleWasteTypeSelect env collectorId wasteType s st).2 in
  match IndexState.scannedUserId s with
  | Some (c :: u) =>
      (exists log,
         CollectorAPI.getCollectionLogs None st'
         = CollectorAPI.getCollectionLogs None st ++ [log]
         /\ CollectorAPI.getCollectionLogs (Some collectorId) st'
            = CollectorAPI.getCollectionLogs (Some collectorId) st ++ [log]
         /\ CollectionLog.user_id log = c :: u
         /\ CollectionLog.collector_id log = collectorId
         /\ CollectionLog.waste_type log = wasteType
         /\ CollectionLog.timestamp log = Env.toISOString env
         /\ CollectionLog.latitude log <> Some S754_nan
         /\ CollectionLog.longitude log <> Some S754_nan
         /\ CollectionLog.latitude log <> Some (S754_zero true)
         /\ CollectionLog.longitude log <> Some (S754_zero true)
         /\ (forall v, CollectionLog.latitude log = Some v ->
                       Num.is_nan v = false /\ v <> S754_zero true
                       /\ Number_isFinite v = true)
         /\ (forall v, CollectionLog.longitude log = Some v ->
                       Num.is_nan v = false /\ v <> S754_zero true
                       /\ Number_isFinite v = true)
         /\ (CollectionLog.latitude log = None
             <-> exists sign lng,
                   IndexState.scanLocation s = Some (S754_infinity sign, lng))
         /\ (CollectionLog.longitude log = None
             <-> exists lat sign,
                   IndexState.scanLocation s = Some (lat, S754_infinity sign))
         /\ (IndexState.scanLocation s = None ->
             CollectionLog.latitude log = Some Num.zero
             /\ CollectionLog.longitude log = Some Num.zero))
      /\ s' = IndexState.mk (IndexState.activeView s) false None None
      /\ (forall env2 wasteType2,
            handleWasteTypeSelect env2 collectorId wasteType2 s' st' = (s', st'))
  | _ => s' = s /\ st' = st
  end.
Proof.
  intros s' st'; subst s' st'.
  destruct (IndexState.scannedUserId s) as [[|c u]|] eqn:Hs;
    try (unfold handleWasteTypeSelect; rewrite Hs; split; reflexivity).
  rewrite (handleWasteTypeSelect_scanned _ _ _ _ _ _ _ Hs).
  cbn [fst snd].
  split; [|split; reflexivity].
  set (data := collection_data env collectorId (c :: u) wasteType
                 (IndexState.scanLocation s)).
  exists (CollectionLog.JSON_roundtrip (CollectorAPI.logCollection env data st).1).
  destruct (JSON_number_or_zero (option_map fst (IndexState.scanLocation s)))
    as (Hlat & Hlat_null & Hlat_none).
  destruct (JSON_number_or_zero (option_map snd (IndexState.scanLocation s)))
    as (Hlng & Hlng_null & Hlng_none).
  split; [apply (getCollectionLogs_app None)|].
  split.
  { rewrite getCollectionLogs_app.
    destruct (ToBoolean (JString collectorId)); [|reflexivity].
    now rewrite filter_cons_True. }
  split; [reflexivity|]. split; [reflexivity|].
  split; [reflexivity|]. split; [reflexivity|].
  change (CollectionLog.latitude
            (CollectionLog.JSON_roundtrip (CollectorAPI.logCollection env data st).1))
    with (JSON_number (number_or_zero (option_map fst (IndexState.scanLocation s)))).
  change (CollectionLog.longitude
            (CollectionLog.JSON_roundtrip (CollectorAPI.logCollection env data st).1))
    with (JSON_number (number_or_zero (option_map snd (IndexState.scanLocation s)))).
  split; [intros E; now destruct (Hlat _ E) as [[=] _]|].
  split; [intros E; now destruct (Hlng _ E) as [[=] _]|].
  split; [intros E; now destruct (Hlat _ E) as (_ & H & _)|].
  split; [intros E; now destruct (Hlng _ E) as (_ & H & _)|].
  split; [exact Hlat|]. split; [exact Hlng|].
  split.
  { rewrite Hlat_null. destruct (IndexState.scanLocation s) as [[lat lng]|];
      simpl; split.
    - intros [sign [= ->]]; eauto.
    - intros (sign & lng' & [= -> _]); eauto.
    - intros [sign [=]].
    - intros (sign & lng' & [=]). }
  split.
  { rewrite Hlng_null. destruct (IndexState.scanLocation s) as [[lat lng]|];
      simpl; split.
    - intros [sign [= ->]]; eauto.
    - intros (lat' & sign & [= _ ->]); eauto.
    - intros [sign [=]].
    - intros (lat' & sign & [=]). }
  intros E. rewrite E in *. split; [now apply Hlat_none|now apply Hlng_none].
Qed.

(** X21.  From the scan to the log: scanning the code generated for a
    non-empty user identifier, while no other scan is being processed,
    ends in [onScanSuccess] with that identifier; choosing a waste type
    then logs one collection for that user under the collector. *)
Theorem scan_then_select (geolocation : option position_answer) (now : Z)
    (env : Env.t) (collectorId userId : jsstring) (wasteType : WasteType)
    (s : IndexState.t) (st : Storage.t) :
  userId <> [] ->
  let location :=
    match geolocation with
    | Some (PositionFix latitude longitude _) => Some (latitude, longitude)
    | _ => None
    end in
  let s1 := handleScanSuccess userId location s in
  let st' := (handleWasteTypeSelect env collectorId wasteType s1 st).2 in
  handleScan geolocation now false (Some (generateMockQRCode userId))
  = ScanSuccess (JString userId) location
  /\ IndexState.showWasteSelector s1 = true
  /\ exists log,
       CollectorAPI.getCollectionLogs None st'
       = CollectorAPI.getCollectionLogs None st ++ [log]
       /\ In log (CollectorAPI.getCollectionLogs (Some collectorId) st')
       /\ CollectionLog.user_id log = userId
       /\ CollectionLog.collector_id log = collectorId
       /\ CollectionLog.waste_type log = wasteType.
Proof.
  intros Hne location s1 st'. split; [|split; [reflexivity|]].
  - rewrite handleScan_unfold. unfold generateMockQRCode.
    destruct (SWACHH_USER_ ++ userId) as [|c text] eqn:E;
      [vm_compute in E; discriminate E|].
    rewrite <- E, parseQRCode_strips_prefix by exact Hne.
    subst location. reflexivity.
  - subst st' s1.
    destruct userId as [|c u]; [contradiction|].
    rewrite (handleWasteTypeSelect_scanned _ _ _ _ _ c u) by reflexivity.
    cbn [fst snd]. unfold handleScanSuccess. cbn [IndexState.scanLocation].
    set (data := collection_data env collectorId (c :: u) wasteType location).
    exists (CollectionLog.JSON_roundtrip (CollectorAPI.logCollection env data st).1).
    split; [reflexivity|].
    split; [|repeat split].
    apply getCollectionLogs_keeps; [|reflexivity].
    unfold CollectorAPI.logCollection. rewrite addCollectionLog_logs.
    apply in_or_app; right; now left.
Qed.

Lemma scan_then_select_witness :
  js "42" <> []
  /\ handleScan None 0 false (Some (generateMockQRCode (js "42")))
     = ScanSuccess (JString (js "42")) None.
Proof.
  assert (H : js "42" <> []) by (vm_compute; discriminate).
  split; [exact H|].
  exact (proj1 (scan_then_select None 0 sample_env (js "C1") (js "42") Wet
                  IndexState.initial Storage.empty H)).
Defined.

Lemma handleSubmit_files (env : Env.t) (collectorId description : jsstring)
    (photo : photo_input) (position : number * number) (st : Storage.t) :
  photo <> PhotoUnreadable ->
  handleSubmit env collectorId description photo (Some position) st
  = let '(report, st') :=
      CollectorAPI.reportIllegalDumping env
        (report_data env collectorId description
           match photo with PhotoDataURL url => url | _ => [] end position) st in
    (ReportSubmitted report, st').
Proof. destruct photo; [reflexivity|contradiction|reflexivity]. Qed.

(** X22.  [handleSubmit] without a captured location files nothing, and
    nothing when the photo cannot be read.  Otherwise it files one report,
    pending, for the collector, listed last for that collector as JSON
    text keeps it: at the captured coordinates when they are numbers that
    JSON text carries, with [null] for a NaN or infinite coordinate and
    [0] for a negative zero.  The description is the trimmed text, left
    out when that is empty, and the photo is left out when there is
    none. *)
Theorem handleSubmit_outcome (env : Env.t) (collectorId description : jsstring)
    (photo : photo_input) (location : option (number * number)) (st : Storage.t) :
  let outcome := (handleSubmit env collectorId description photo location st).1 in
  let st' := (handleSubmit env collectorId description photo location st).2 in
  match location, photo with
  | None, _ => outcome = LocationRequired /\ st' = st
  | Some _, PhotoUnreadable => outcome = SubmissionFailed /\ st' = st
  | Some position, _ =>
      exists report listed,
        outcome = ReportSubmitted report
        /\ listed = IllegalDumpingReport.JSON_roundtrip report
        /\ CollectorAPI.getDumpingReports (Some collectorId) st'
           = CollectorAPI.getDumpingReports (Some collectorId) st ++ [listed]
        /\ IllegalDumpingReport.status listed = Pending
        /\ IllegalDumpingReport.collector_id listed = collectorId
        /\ IllegalDumpingReport.latitude report = Some (fst position)
        /\ IllegalDumpingReport.longitude report = Some (snd position)
        /\ IllegalDumpingReport.latitude listed = JSON_number (fst position)
        /\ IllegalDumpingReport.longitude listed = JSON_number (snd position)
        /\ (JSON_number (fst position) = Some (fst position) ->
            JSON_number (snd position) = Some (snd position) ->
            listed = report)
        /\ IllegalDumpingReport.description listed
           = (if forallb is_white_space description then None
              else Some (trim description))
        /\ IllegalDumpingReport.description listed <> Some []
        /\ IllegalDumpingReport.photo_base64 listed <> Some []
        /\ (photo = NoPhoto -> IllegalDumpingReport.photo_base64 listed = None)
        /\ IllegalDumpingReport.photo_url listed = None
        /\ (forall collectorId',
              CollectorAPI.getCollectionLogs collectorId' st'
              = CollectorAPI.getCollectionLogs collectorId' st)
  end.
Proof.
  intros outcome st'; subst outcome st'.
  destruct location as [position|];
    [|destruct photo; split; reflexivity].
  assert (Hdesc : string_or_undefined (trim description)
                  = if forallb is_white_space description then None
                    else Some (trim description)).
  { unfold string_or_undefined. rewrite ToBoolean_trim.
    now destruct (forallb is_white_space description). }
  assert (Hsome : forall s, string_or_undefined s <> Some []).
  { intros [|c s]; simpl; discriminate. }
  assert (Hfiled : photo <> PhotoUnreadable ->
            match photo with
            | PhotoUnreadable => True
            | _ =>
              exists report listed,
                (handleSubmit env collectorId description photo (Some position) st).1
                = ReportSubmitted report
                /\ listed = IllegalDumpingReport.JSON_roundtrip report
                /\ CollectorAPI.getDumpingReports (Some collectorId)
                     (handleSubmit env collectorId description photo
                        (Some position) st).2
                   = CollectorAPI.getDumpingReports (Some collectorId) st ++ [listed]
                /\ IllegalDumpingReport.status listed = Pending
                /\ IllegalDumpingReport.collector_id listed = collectorId
                /\ IllegalDumpingReport.latitude report = Some (fst position)
                /\ IllegalDumpingReport.longitude report = Some (snd position)
                /\ IllegalDumpingReport.latitude listed = JSON_number (fst position)
                /\ IllegalDumpingReport.longitude listed = JSON_number (snd position)
                /\ (JSON_number (fst position) = Some (fst position) ->
                    JSON_number (snd position) = Some (snd position) ->
                    listed = report)
                /\ IllegalDumpingReport.description listed
                   = (if forallb is_white_space description then None
                      else Some (trim description))
                /\ IllegalDumpingReport.description listed <> Some []
                /\ IllegalDumpingReport.photo_base64 listed <> Some []
                /\ (photo = NoPhoto ->
                    IllegalDumpingReport.photo_base64 listed = None)
                /\ IllegalDumpingReport.photo_url listed = None
                /\ (forall collectorId',
                      CollectorAPI.getCollectionLogs collectorId'
                        (handleSubmit env collectorId description photo
                           (Some position) st).2
                      = CollectorAPI.getCollectionLogs collectorId' st)
            end).
  { intros Hphoto. rewrite (handleSubmit_files _ _ _ _ _ _ Hphoto).
    set (data := report_data env collectorId description
                   match photo with PhotoDataURL url => url | _ => [] end position).
    pose proof (reportIllegalDumping_own env data st) as Hown.
    assert (Hreturned : (CollectorAPI.reportIllegalDumping env data st).1
                        = IllegalDumpingReport.with_id data
                            (generate_id "report" env)) by reflexivity.
    destruct (CollectorAPI.reportIllegalDumping env data st)
      as [report st1] eqn:E.
    assert (Es : st1 = (CollectorAPI.reportIllegalDumping env data st).2)
      by (now rewrite E).
    simpl in Hown, Hreturned. cbn [fst snd].
    assert (Hgoal :
      exists report0 listed,
        ReportSubmitted report = ReportSubmitted report0
        /\ listed = IllegalDumpingReport.JSON_roundtrip report0
        /\ CollectorAPI.getDumpingReports (Some collectorId) st1
           = CollectorAPI.getDumpingReports (Some collectorId) st ++ [listed]
        /\ IllegalDumpingReport.status listed = Pending
        /\ IllegalDumpingReport.collector_id listed = collectorId
        /\ IllegalDumpingReport.latitude report0 = Some (fst position)
        /\ IllegalDumpingReport.longitude report0 = Some (snd position)
        /\ IllegalDumpingReport.latitude listed = JSON_number (fst position)
        /\ IllegalDumpingReport.longitude listed = JSON_number (snd position)
        /\ (JSON_number (fst position) = Some (fst position) ->
            JSON_number (snd position) = Some (snd position) ->
            listed = report0)
        /\ IllegalDumpingReport.description listed
           = (if forallb is_white_space description then None
              else Some (trim description))
        /\ IllegalDumpingReport.description listed <> Some []
        /\ IllegalDumpingReport.photo_base64 listed <> Some []
        /\ (photo = NoPhoto -> IllegalDumpingReport.photo_base64 listed = None)
        /\ IllegalDumpingReport.photo_url listed = None
        /\ (forall collectorId',
              CollectorAPI.getCollectionLogs collectorId' st1
              = CollectorAPI.getCollectionLogs collectorId' st)).
    { exists report, (IllegalDumpingReport.JSON_roundtrip report).
      split; [reflexivity|]. split; [reflexivity|]. split; [exact Hown|].
      rewrite Hreturned.
      split; [reflexivity|]. split; [reflexivity|].
      split; [reflexivity|]. split; [reflexivity|].
      split; [reflexivity|]. split; [reflexivity|].
      split; [intros Hlat Hlng;
              now apply IllegalDumpingReport_JSON_roundtrip_kept|].
      split; [exact Hdesc|]. split; [apply Hsome|].
      split; [apply Hsome|].
      split; [now intros ->|]. split; [reflexivity|].
      intros c'. rewrite Es. reflexivity. }
    destruct photo; [exact Hgoal|contradiction|exact Hgoal]. }
  destruct photo as [| |url]; [apply Hfiled; discriminate|split; reflexivity|
                               apply Hfiled; discriminate].
Qed.

(* ===================================================================== *)
(** * calculateDistance: a point and itself *)
(* ===================================================================== *)

Lemma Num_sub_diag (x : number) :
  Number_isFinite x = true -> Num.sub x x = Num.zero.
Proof.
  destruct x as [s|s| |s m e]; try discriminate; intros _.
  - now destruct s.
  - unfold Num.sub, SFsub. rewrite Z.min_id.
    destruct (shl_align m e e) as [m' e'].
    now rewrite Z.sub_diag.
Qed.

Lemma Num_mul_zero_r (x : number) :
  Number_isFinite x = true -> exists s, Num.mul x Num.zero = S754_zero s.
Proof. destruct x as [s|s| |s m e]; try discriminate; simpl; eauto. Qed.

Section HaversineSelf.

Variable M : Math.t.
Hypothesis sin_zero : Math.sin M Num.zero = Num.zero.
Hypothesis atan2_zero_one : Math.atan2 M Num.zero Num.one = Num.zero.

(** X23.  On a host where [Math.sin(0)] is [0] and [Math.atan2(0, 1)] is
    [0], the distance from a point with finite coordinates to itself is
    [0], provided the square of the cosine of its latitude is finite, as
    it is for a cosine within [-1, 1]. *)
Theorem calculateDistance_self (lat lng : number) :
  Number_isFinite lat = true ->
  Number_isFinite lng = true ->
  Number_isFinite
    (Num.mul (Math.cos M (toRadian lat)) (Math.cos M (toRadian lat))) = true ->
  calculateDistance M lat lng lat lng = Num.zero.
Proof using sin_zero atan2_zero_one.
  intros Hlat Hlng Hcos. unfold calculateDistance.
  rewrite (Num_sub_diag lat Hlat), (Num_sub_diag lng Hlng).
  change (toRadian Num.zero) with Num.zero.
  change (Num.div Num.zero Num.two) with Num.zero.
  rewrite sin_zero.
  destruct (Num_mul_zero_r _ Hcos) as [s ->].
  replace (Num.add (Num.mul Num.zero Num.zero) (Num.mul (S754_zero s) Num.zero))
    with Num.zero by now destruct s.
  change (Math.sqrt Num.zero) with Num.zero.
  change (Math.sqrt (Num.sub Num.one Num.zero)) with Num.one.
  rewrite atan2_zero_one. reflexivity.
Qed.

End HaversineSelf.

Lemma calculateDistance_self_witness :
  Math.sin small_angle_Math Num.zero = Num.zero
  /\ Math.atan2 small_angle_Math Num.zero Num.one = Num.zero
  /\ Number_isFinite (Num.of_Z 12) = true
  /\ Number_isFinite (Num.of_Z 77) = true
  /\ Number_isFinite
       (Num.mul (Math.cos small_angle_Math (toRadian (Num.of_Z 12)))
                (Math.cos small_angle_Math (toRadian (Num.of_Z 12)))) = true
  /\ calculateDistance small_angle_Math (Num.of_Z 12) (Num.of_Z 77)
       (Num.of_Z 12) (Num.of_Z 77) = Num.zero.
Proof.
  assert (H1 : Math.sin small_angle_Math Num.zero = Num.zero) by reflexivity.
  assert (H2 : Math.atan2 small_angle_Math Num.zero Num.one = Num.zero)
    by (vm_compute; reflexivity).
  assert (H3 : Number_isFinite (Num.of_Z 12) = true) by (vm_compute; reflexivity).
  assert (H4 : Number_isFinite (Num.of_Z 77) = true) by (vm_compute; reflexivity).
  assert (H5 : Number_isFinite
                 (Num.mul (Math.cos small_angle_Math (toRadian (Num.of_Z 12)))
                          (Math.cos small_angle_Math (toRadian (Num.of_Z 12))))
               = true) by (vm_compute; reflexivity).
  split; [exact H1|]. split; [exact H2|]. split; [exact H3|].
  split; [exact H4|]. split; [exact H5|].
  exact (calculateDistance_self small_angle_Math H1 H2 _ _ H3 H4 H5).
Defined.

(* ===================================================================== *)
(** * Dashboard: the counters *)
(* ===================================================================== *)

(** X24.  On a host whose [sort] rearranges an array and no more, the
    dashboard counts what the store lists for the collector: all of its
    collections and reports, and the pending ones among the reports; the
    scans of today are among the collections, and each recent list has
    five entries at most, all of them listed.  A collection logged for the
    collector raises the total by one. *)
Theorem loadData_counts (host : Runtime.t) (collectorId : jsstring)
    (st : Storage.t) :
  (forall A cmp (l : list A), Permutation (Runtime.Array_sort host A cmp l) l) ->
  let d := loadData host collectorId st in
  let logs := CollectorAPI.getCollectionLogs (Some collectorId) st in
  let reports := CollectorAPI.getDumpingReports (Some collectorId) st in
  DashboardState.totalScans (DashboardState.stats_of d) = length logs
  /\ DashboardState.totalReports (DashboardState.stats_of d) = length reports
  /\ DashboardState.pendingReports (DashboardState.stats_of d)
     = length (filter (fun report => IllegalDumpingReport.status report = Pending)
                 reports)
  /\ (DashboardState.todayScans (DashboardState.stats_of d) <= length logs)%nat
  /\ (DashboardState.pendingReports (DashboardState.stats_of d) <= length reports)%nat
  /\ (length (DashboardState.recentLogs d) <= 5)%nat
  /\ (length (DashboardState.recentReports d) <= 5)%nat
  /\ (forall log, In log (DashboardState.recentLogs d) -> In log logs)
  /\ (forall report, In report (DashboardState.recentReports d) -> In report reports)
  /\ (forall env data,
        CollectionLog.collector_id' data = collectorId ->
        DashboardState.totalScans
          (DashboardState.stats_of
             (loadData host collectorId (CollectorAPI.logCollection env data st).2))
        = S (length logs)).
Proof.
  intros Hsort d logs reports. subst d. unfold loadData.
  fold logs. fold reports. cbn [DashboardState.stats_of DashboardState.totalScans
    DashboardState.totalReports DashboardState.todayScans
    DashboardState.pendingReports DashboardState.recentLogs
    DashboardState.recentReports].
  split; [apply Permutation_length, Hsort|].
  split; [apply Permutation_length, Hsort|].
  split; [apply Permutation_length; now rewrite Hsort|].
  split.
  { etransitivity; [apply length_filter|].
    apply Nat.eq_le_incl, Permutation_length, Hsort. }
  split.
  { etransitivity; [apply length_filter|].
    apply Nat.eq_le_incl, Permutation_length, Hsort. }
  split; [rewrite length_take; lia|].
  split; [rewrite length_take; lia|].
  split.
  { intros log Hin. apply list_elem_of_In. apply list_elem_of_In in Hin.
    apply (fun H => elem_of_sublist _ _ _ H (sublist_take _ 5)) in Hin.
    now rewrite Hsort in Hin. }
  split.
  { intros report Hin. apply list_elem_of_In. apply list_elem_of_In in Hin.
    apply (fun H => elem_of_sublist _ _ _ H (sublist_take _ 5)) in Hin.
    now rewrite Hsort in Hin. }
  intros env data Hid.
  rewrite (Permutation_length (Hsort _ _ _)).
  rewrite getCollectionLogs_app. fold logs.
  rewrite length_app.
  destruct (ToBoolean (JString collectorId)); [|simpl; lia].
  rewrite filter_cons_True by exact Hid. simpl; lia.
Qed.

Lemma insert_by_Permutation {A} (cmp : A -> A -> number) (x : A) (l : list A) :
  Permutation (insert_by cmp x l) (x :: l).
Proof.
  induction l as [|y l IH]; simpl; [reflexivity|].
  destruct (comes_after cmp x y); [|reflexivity].
  rewrite IH. apply perm_swap.
Qed.

Lemma insertion_sort_Permutation (A : Type) (cmp : A -> A -> number) (l : list A) :
  Permutation (insertion_sort A cmp l) l.
Proof.
  induction l as [|x l IH]; simpl; [reflexivity|].
  rewrite insert_by_Permutation. now apply perm_skip.
Qed.

Lemma loadData_counts_witness :
  (forall A cmp (l : list A),
     Permutation (Runtime.Array_sort sample_Runtime A cmp l) l)
  /\ DashboardState.totalScans
       (DashboardState.stats_of (loadData sample_Runtime (js "C1") dashboard_store))
     = length (CollectorAPI.getCollectionLogs (Some (js "C1")) dashboard_store)
  /\ DashboardState.pendingReports
       (DashboardState.stats_of (loadData sample_Runtime (js "C1") dashboard_store))
     = length
         (filter (fun report => IllegalDumpingReport.status report = Pending)
            (CollectorAPI.getDumpingReports (Some (js "C1")) dashboard_store))
  /\ (forall log,
        In log (DashboardState.recentLogs
                  (loadData sample_Runtime (js "C1") dashboard_store)) ->
        In log (CollectorAPI.getCollectionLogs (Some (js "C1")) dashboard_store))
  /\ DashboardState.totalScans
       (DashboardState.stats_of
          (loadData sample_Runtime (js "C1")
             (CollectorAPI.logCollection sample_env
                (collection_of "C1" "u4" "2024-01-01T00:00:01.000Z")
                dashboard_store).2))
     = 3%nat.
Proof.
  assert (H : forall A cmp (l : list A),
             Permutation (Runtime.Array_sort sample_Runtime A cmp l) l)
    by exact insertion_sort_Permutation.
  pose proof (loadData_counts sample_Runtime (js "C1") dashboard_store H)
    as (H1 & _ & H3 & _ & _ & _ & _ & H8 & _ & H10).
  split; [exact H|]. split; [exact H1|]. split; [exact H3|].
  split; [exact H8|].
  exact (H10 sample_env (collection_of "C1" "u4" "2024-01-01T00:00:01.000Z")
           eq_refl).
Defined.

(** The dashboard of collector C1 over the sample store: two collections,
    one of them of today, one report, pending; the later collection comes
    first. *)
Example loadData_sample :
  DashboardState.stats_of (loadData sample_Runtime (js "C1") dashboard_store)
  = DashboardState.mk_stats 2 1 1 1
  /\ map CollectionLog.user_id
       (DashboardState.recentLogs (loadData sample_Runtime (js "C1") dashboard_store))
     = [js "u2"; js "u1"]
  /\ map CollectionLog.user_id
       (CollectorAPI.getCollectionLogs (Some (js "C1")) dashboard_store)
     = [js "u1"; js "u2"].
Proof. vm_compute. repeat split. Qed.
